(** * TechNeck: the posture classifier of [src/App.tsx]

    The application feeds every camera frame to a pose model and classifies
    the first detected pose as aligned or not aligned.  This development
    embeds the classifier (the "Detect poor body posture" block of
    [handleCameraStream], with [findAngle] and [findDistance]) and the part
    of the component state it writes, and proves the properties the
    specification states about it.

    JavaScript numbers are IEEE 754 binary64 values; they are modelled by
    Rocq's primitive floats, whose operations have exactly that semantics.
    Object fields that TypeScript marks optional are [option]s, the React
    state cells are the fields of a record, and every [setX] call is a
    function on that record, applied in program order.

    The later parts cover the rest of the component (the camera switch, the
    display geometry, the overlay, the labels and the animation-frame
    handle) and the recorder application of the second source file. *)

From Stdlib Require Import Floats ZArith List String Bool Lia.
Import ListNotations.

#[local] Set Warnings "-inexact-float".
#[local] Open Scope float_scope.

(** ** The numeric built-ins the source calls *)

Module JS.

(** [Math.floor]: the largest integral value not above the argument;
    NaN, the infinities and both zeros are returned as they are.  A finite
    non-zero double is [(-1)^s * m * 2^e]; with [e >= 0] it is integral
    already, otherwise the integer part [m / 2^-e] is below [2^53] and
    converts exactly. *)
Definition Math_floor (v : float) : float :=
  match Prim2SF v with
  | S754_finite s m e =>
      if (0 <=? e)%Z then v
      else
        let q := Z.shiftr (Zpos m) (- e) in
        if (Z.shiftl q (- e) =? Zpos m)%Z then v
        else if s then - of_uint63 (Uint63.of_Z (q + 1))
        else of_uint63 (Uint63.of_Z q)
  | _ => v
  end.

(** [Math.sqrt] is the correctly rounded square root of IEEE 754. *)
Definition Math_sqrt (v : float) : float := sqrt v.

(** [Math.PI], the double nearest to pi. *)
Definition Math_PI : float := 0x1.921fb54442d18p+1.

(** [v ** 2]: the engines compute the square as one rounded product. *)
Definition sq (v : float) : float := v * v.

End JS.

(** ** A concrete [Math.acos]

    ECMAScript leaves [Math.acos] "implementation-approximated" and only
    fixes its special cases.  The classifier is therefore embedded over an
    arbitrary [Math_acos]; concrete frames are evaluated with the fdlibm
    algorithm ([e_acos.c]), which V8 and the C libraries behind Hermes
    use. *)

Module Fdlibm.

Definition pio2_hi : float := 0x1.921fb54442d18p+0.
Definition pio2_lo : float := 0x1.1a62633145c07p-54.
Definition pi : float := 0x1.921fb54442d18p+1.
Definition pS0 : float := 0x1.5555555555555p-3.
Definition pS1 : float := -0x1.4d61203eb6f7dp-2.
Definition pS2 : float := 0x1.9c1550e884455p-3.
Definition pS3 : float := -0x1.48228b5688f3bp-5.
Definition pS4 : float := 0x1.9efe07501b288p-11.
Definition pS5 : float := 0x1.23de10dfdf709p-15.
Definition qS1 : float := -0x1.33a271c8a2d4bp+1.
Definition qS2 : float := 0x1.02ae59c598ac8p+1.
Definition qS3 : float := -0x1.6066c1b8d0159p-1.
Definition qS4 : float := 0x1.3b8c5b12e9282p-4.

Definition P (z : float) : float :=
  z * (pS0 + z * (pS1 + z * (pS2 + z * (pS3 + z * (pS4 + z * pS5))))).

Definition Q (z : float) : float :=
  1 + z * (qS1 + z * (qS2 + z * (qS3 + z * qS4))).

(** [__LO(df) = 0]: the low 32 bits of the significand are cleared. *)
Definition clear_low_word (v : float) : float :=
  match Prim2SF v with
  | S754_finite s m e =>
      let hi := Z.shiftl (Z.shiftr (Zpos m) 32) 32 in
      let f := Z.ldexp (of_uint63 (Uint63.of_Z hi)) e in
      if s then - f else f
  | _ => v
  end.

Definition acos (v : float) : float :=
  if is_nan v then nan
  else if 1 <=? abs v then
    if abs v =? 1 then (if 0 <? v then 0 else pi + 2 * pio2_lo)
    else (v - v) / (v - v)
  else if abs v <? 0.5 then
    if abs v <? 0x1.00001p-57 then pio2_hi + pio2_lo
    else
      let z := v * v in
      let r := P z / Q z in
      pio2_hi - (v - (pio2_lo - r * v))
  else if v <? 0 then
    let z := (1 + v) * 0.5 in
    let s := sqrt z in
    let r := P z / Q z in
    let w := r * s - pio2_lo in
    pi - 2 * (s + w)
  else
    let z := (1 - v) * 0.5 in
    let s := sqrt z in
    let df := clear_low_word s in
    let c := (z - df * df) / (s + df) in
    let r := P z / Q z in
    let w := r * s + c in
    2 * (df + w).

End Fdlibm.

(** ** [findDistance] and [findAngle] (App.tsx, lines 468-481) *)

Definition findDistance (x1 y1 x2 y2 : float) : float :=
  let dist := JS.Math_sqrt (JS.sq (x2 - x1) + JS.sq (y2 - y1)) in
  JS.Math_floor dist.

Section Angle.

Variable Math_acos : float -> float.

Definition findAngle (x1 y1 x2 y2 : float) : float :=
  let angle :=
    Math_acos ((y2 - y1) * (- y1)
               / (JS.Math_sqrt (JS.sq (x2 - x1) + JS.sq (y2 - y1)) * y1)) in
  JS.Math_floor (angle * (180 / JS.Math_PI)).

End Angle.

(** ** Data: key points, poses, the component state *)

(** A [Keypoint] of the pose-detection library; [score] and [name] are
    optional there. *)
Record Keypoint : Type := mkKeypoint {
  x : float;
  y : float;
  score : option float;
  name : option string
}.

Record Pose : Type := mkPose {
  keypoints : list Keypoint;
  pose_score : option float
}.

Inductive CameraType : Type := front | back.

Definition CameraType_eqb (a b : CameraType) : bool :=
  match a, b with
  | front, front | back, back => true
  | _, _ => false
  end.

(** The [useState] cells of [App] that the frame loop and the camera
    switch write: [poses], [aligned], [cameraType], [color].  ([fps] is a
    function of the clock and is left out.) *)
Record AppState : Type := mkAppState {
  poses : option (list Pose);
  aligned : bool;
  cameraType : CameraType;
  color : string
}.

(** The initial values given to [useState] (lines 54-62). *)
Definition initialState : AppState :=
  {| poses := None; aligned := false; cameraType := front;
     color := "green" |}.

Definition setPoses (p : list Pose) (st : AppState) : AppState :=
  {| poses := Some p; aligned := aligned st;
     cameraType := cameraType st; color := color st |}.

Definition setAligned (b : bool) (st : AppState) : AppState :=
  {| poses := poses st; aligned := b;
     cameraType := cameraType st; color := color st |}.

Definition setCameraType (c : CameraType) (st : AppState) : AppState :=
  {| poses := poses st; aligned := aligned st;
     cameraType := c; color := color st |}.

Definition setColor (c : string) (st : AppState) : AppState :=
  {| poses := poses st; aligned := aligned st;
     cameraType := cameraType st; color := c |}.

(** [const MIN_KEYPOINT_SCORE = 0.3] (line 34). *)
Definition MIN_KEYPOINT_SCORE : float := 0.3.

(** [kp.name === s] *)
Definition name_is (s : string) (kp : Keypoint) : bool :=
  match name kp with
  | Some n => String.eqb n s
  | None => false
  end.

(** [keypoints.find((kp) => kp.name === s)] *)
Definition find_named (s : string) (kps : list Keypoint) : option Keypoint :=
  find (name_is s) kps.

(** ** The classifier: the body of [loop] in [handleCameraStream] *)

Section Classifier.

Variable Math_acos : float -> float.

(** Lines 157-165: the shoulder-distance check. *)
Definition shoulderCheck (leftShoulder rightShoulder : option Keypoint)
    (st : AppState) : AppState :=
  match leftShoulder, rightShoulder with
  | Some ls, Some rs =>
      if findDistance (x ls) (y ls) (x rs) (y rs) <? 100
      then setAligned true st
      else setAligned false st
  | _, _ => st
  end.

(** Lines 176-191: the front-camera branch (ears and nose). *)
Definition frontBranch (cam : CameraType)
    (leftEar rightEar nose : option Keypoint) (st : AppState) : AppState :=
  match CameraType_eqb cam front, leftEar, rightEar, nose with
  | true, Some le, Some re, Some n =>
      let earsMidpoint_x := (x le + x re) / 2 in
      let earsMidpoint_y := (y le + y re) / 2 in
      let dist := findDistance earsMidpoint_x earsMidpoint_y (x n) (y n) in
      if dist <? 10
      then setAligned true (setColor "green" st)
      else setAligned false (setColor "red" st)
  | _, _, _, _ => st
  end.

(** Lines 193-216: the back-camera branch (neck and torso angles). *)
Definition backBranch (cam : CameraType)
    (leftShoulder rightShoulder leftEar rightEar leftHip rightHip
       : option Keypoint) (st : AppState) : AppState :=
  match CameraType_eqb cam back,
        leftShoulder, rightShoulder, leftEar, rightEar, leftHip, rightHip with
  | true, Some ls, Some _, Some le, Some _, Some lh, Some _ =>
      let neckAngle := findAngle Math_acos (x ls) (y ls) (x le) (y le) in
      let torsoAngle := findAngle Math_acos (x lh) (y lh) (x ls) (y ls) in
      if (neckAngle <? 40) && (torsoAngle <? 10)
      then setAligned true (setColor "green" st)
      else setAligned false (setColor "red" st)
  | _, _, _, _, _, _, _ => st
  end.

(** Lines 152-217: "Detect poor body posture".  [cam] is the
    [cameraType] the closure of [loop] captured. *)
Definition detectPosture (cam : CameraType) (ps : list Pose)
    (st : AppState) : AppState :=
  match ps with
  | [] => st
  | pose :: _ =>
      let kps := keypoints pose in
      let leftShoulder := find_named "left_shoulder" kps in
      let rightShoulder := find_named "right_shoulder" kps in
      let st1 := shoulderCheck leftShoulder rightShoulder st in
      let leftEar := find_named "left_ear" kps in
      let rightEar := find_named "right_ear" kps in
      let leftHip := find_named "left_hip" kps in
      let rightHip := find_named "right_hip" kps in
      let nose := find_named "nose" kps in
      let st2 := frontBranch cam leftEar rightEar nose st1 in
      backBranch cam leftShoulder rightShoulder leftEar rightEar
                 leftHip rightHip st2
  end.

(** One iteration of [loop] (lines 132-218).  [detected] is [None] when
    the guard [model && tfReady && imageTensor != null] fails, and the
    result of [model.estimatePoses] otherwise. *)
Definition loop (cam : CameraType) (detected : option (list Pose))
    (st : AppState) : AppState :=
  match detected with
  | None => st
  | Some ps => detectPosture cam ps (setPoses ps st)
  end.

(** [handleSwitchCameraType] (lines 301-307).  [cam] is the [cameraType]
    of the render that created the handler: the handler compares that
    captured value, not the cell, and sets the cell to a constant. *)
Definition handleSwitchCameraType (cam : CameraType) (st : AppState)
    : AppState :=
  if CameraType_eqb cam front
  then setCameraType back st
  else setCameraType front st.

(** What can happen to the component: a frame is processed by a loop
    whose closure holds the camera type [cam], or the user presses the
    switcher, whose handler holds the camera type [cam] of the render it
    comes from. *)
Inductive Event : Type :=
| Frame (cam : CameraType) (detected : option (list Pose))
| SwitchCamera (cam : CameraType).

Definition handle (st : AppState) (ev : Event) : AppState :=
  match ev with
  | Frame cam detected => loop cam detected st
  | SwitchCamera cam => handleSwitchCameraType cam st
  end.

(** The state after a sequence of events, from the initial state. *)
Definition run (evs : list Event) : AppState :=
  fold_left handle evs initialState.

End Classifier.

(** [renderPose] (lines 237-270) draws the key points of the first pose
    whose score exceeds [MIN_KEYPOINT_SCORE]; [k.score ?? 0]. *)
Definition drawnKeypoints (st : AppState) : list Keypoint :=
  match poses st with
  | Some (pose :: _) =>
      filter (fun k => MIN_KEYPOINT_SCORE <?
                         match score k with Some s => s | None => 0 end)
             (keypoints pose)
  | _ => []
  end.

(** ** Concrete frames *)

Definition kp (n : string) (px py : float) : Keypoint :=
  {| x := px; y := py; score := Some 0.9; name := Some n |}.

Definition kp_scored (n : string) (px py sc : float) : Keypoint :=
  {| x := px; y := py; score := Some sc; name := Some n |}.

Definition pose_of (kps : list Keypoint) : Pose :=
  {| keypoints := kps; pose_score := None |}.

(** The frame of the specification's second test: ears at (0,0) and
    (10,0), nose at (5,3). *)
Definition pose_nose_near : Pose :=
  pose_of [kp "left_ear" 0 0; kp "right_ear" 10 0; kp "nose" 5 3].

(** A frame for the back camera: shoulders at height 150, the left ear
    at [(ear_x, 50)], hips at height 250. *)
Definition pose_back (ear_x : float) : Pose :=
  pose_of [kp "left_shoulder" 100 150; kp "right_shoulder" 40 150;
           kp "left_ear" ear_x 50; kp "right_ear" 40 50;
           kp "left_hip" 84 250; kp "right_hip" 40 250].

(** A frame for the back camera in which the ear is straight above the
    shoulder and the shoulder leans away from the hip. *)
Definition pose_leaning : Pose :=
  pose_of [kp "left_shoulder" 130 120; kp "right_shoulder" 70 120;
           kp "left_ear" 130 90; kp "right_ear" 70 90;
           kp "left_hip" 100 200; kp "right_hip" 60 200].

(** The frame of the second test with every score at 0.1, below
    [MIN_KEYPOINT_SCORE]. *)
Definition pose_low_scores : Pose :=
  pose_of [kp_scored "left_ear" 0 0 0.1; kp_scored "right_ear" 10 0 0.1;
           kp_scored "nose" 5 3 0.1].

(** Frames holding the two shoulders only (tests 4 and 5). *)
Definition pose_shoulders (right_x : float) : Pose :=
  pose_of [kp "left_shoulder" 0 0; kp "right_shoulder" right_x 0].

(** The frame of the third test: ears at (0,0) and (10,0), nose at
    (5,20). *)
Definition pose_nose_far : Pose :=
  pose_of [kp "left_ear" 0 0; kp "right_ear" 10 0; kp "nose" 5 20].

(** A state in which the last camera verdict was "not aligned". *)
Definition state_red : AppState :=
  {| poses := None; aligned := false; cameraType := front; color := "red" |}.

(** ** The specification's wording, for comparison *)

(** Radians to degrees. *)
Definition degrees (rad : float) : float := rad * (180 / JS.Math_PI).

(** The back-camera rule as the specification words it: the neck angle
    on the pair (left_hip, left_shoulder), the torso angle on the pair
    (left_shoulder, left_ear). *)
Definition specBackAligned (acos : float -> float)
    (leftShoulder leftEar leftHip : Keypoint) : bool :=
  let neck :=
    findAngle acos (x leftHip) (y leftHip) (x leftShoulder) (y leftShoulder) in
  let torso :=
    findAngle acos (x leftShoulder) (y leftShoulder) (x leftEar) (y leftEar) in
  (neck <? 40) && (torso <? 10).

(** A key point is below the confidence threshold. *)
Definition low_score (k : Keypoint) : bool :=
  match score k with
  | Some s => s <? MIN_KEYPOINT_SCORE
  | None => false
  end.

(** The key points of a pose with their scores replaced. *)
Definition with_score (f : Keypoint -> option float) (k : Keypoint)
    : Keypoint :=
  {| x := x k; y := y k; score := f k; name := name k |}.

Definition rescore (f : Keypoint -> option float) (p : Pose) : Pose :=
  {| keypoints := map (with_score f) (keypoints p);
     pose_score := pose_score p |}.

(** ** When a camera branch runs *)

Definition present (o : option Keypoint) : bool :=
  match o with Some _ => true | None => false end.

(** The guard of the front-camera branch (line 176). *)
Definition frontGuard (cam : CameraType) (kps : list Keypoint) : bool :=
  CameraType_eqb cam front
  && present (find_named "left_ear" kps)
  && present (find_named "right_ear" kps)
  && present (find_named "nose" kps).

(** The guard of the back-camera branch (line 193). *)
Definition backGuard (cam : CameraType) (kps : list Keypoint) : bool :=
  CameraType_eqb cam back
  && present (find_named "left_shoulder" kps)
  && present (find_named "right_shoulder" kps)
  && present (find_named "left_ear" kps)
  && present (find_named "right_ear" kps)
  && present (find_named "left_hip" kps)
  && present (find_named "right_hip" kps).

(** The two camera branches of a frame, without the shoulder check. *)
Definition cameraBranches (acos : float -> float) (cam : CameraType)
    (kps : list Keypoint) (st : AppState) : AppState :=
  backBranch acos cam
    (find_named "left_shoulder" kps) (find_named "right_shoulder" kps)
    (find_named "left_ear" kps) (find_named "right_ear" kps)
    (find_named "left_hip" kps) (find_named "right_hip" kps)
    (frontBranch cam (find_named "left_ear" kps)
       (find_named "right_ear" kps) (find_named "nose" kps) st).

(** The displayed colour is one of the two the classifier writes. *)
Definition color_ok (st : AppState) : Prop :=
  color st = "green"%string \/ color st = "red"%string.

(** A float is a zero of either sign: [v === 0] in JavaScript. *)
Definition is_zero_float (v : float) : bool := (v =? 0).

(** A float is a zero or NaN. *)
Definition zero_or_nan (v : float) : Prop :=
  (exists s : bool, Prim2SF v = S754_zero s) \/ v = nan.

(** ** The rest of [App]: display geometry, rendering, the frame handle *)

(** [Platform.OS] of React Native. *)
Inductive PlatformOS : Type := android | ios | windows | macos | web.

(** [ScreenOrientation.Orientation]. *)
Inductive Orientation : Type :=
| UNKNOWN | PORTRAIT_UP | PORTRAIT_DOWN | LANDSCAPE_LEFT | LANDSCAPE_RIGHT.

(** What the geometry of the display depends on: the platform, the
    [orientation] cell ([undefined] until the first reading) and
    [Dimensions.get('window').width]. *)
Record Display : Type := mkDisplay {
  os : PlatformOS;
  orientation : option Orientation;
  window_width : float
}.

(** Lines 20-21. *)
Definition IS_ANDROID (p : PlatformOS) : bool :=
  match p with android => true | _ => false end.

Definition IS_IOS (p : PlatformOS) : bool :=
  match p with ios => true | _ => false end.

(** Lines 30-31. *)
Definition CAM_PREVIEW_WIDTH (d : Display) : float := window_width d.

Definition CAM_PREVIEW_HEIGHT (d : Display) : float :=
  CAM_PREVIEW_WIDTH d / (if IS_IOS (os d) then 9 / 16 else 3 / 4).

(** Lines 41-42. *)
Definition OUTPUT_TENSOR_WIDTH : float := 180.

Definition OUTPUT_TENSOR_HEIGHT (p : PlatformOS) : float :=
  OUTPUT_TENSOR_WIDTH / (if IS_IOS p then 9 / 16 else 3 / 4).

(** Line 45. *)
Definition AUTO_RENDER : bool := false.

(** Lines 309-314. *)
Definition isPortrait (d : Display) : bool :=
  match orientation d with
  | Some PORTRAIT_UP | Some PORTRAIT_DOWN => true
  | _ => false
  end.

(** Lines 316-325. *)
Definition getOutputTensorWidth (d : Display) : float :=
  if isPortrait d || IS_ANDROID (os d)
  then OUTPUT_TENSOR_WIDTH
  else OUTPUT_TENSOR_HEIGHT (os d).

(** Lines 327-331. *)
Definition getOutputTensorHeight (d : Display) : float :=
  if isPortrait d || IS_ANDROID (os d)
  then OUTPUT_TENSOR_HEIGHT (os d)
  else OUTPUT_TENSOR_WIDTH.

(** Lines 333-354. *)
Definition getTextureRotationAngleInDegrees (d : Display)
    (cam : CameraType) : float :=
  if IS_ANDROID (os d) then 0
  else
    match orientation d with
    | Some PORTRAIT_DOWN => 180
    | Some LANDSCAPE_LEFT => if CameraType_eqb cam front then 270 else 90
    | Some LANDSCAPE_RIGHT => if CameraType_eqb cam front then 90 else 270
    | _ => 0
    end.

(** A [<Circle>] of the overlay with the props [renderPose] gives it. *)
Record Circle : Type := mkCircle {
  key : string;
  cx : float;
  cy : float;
  r : string;
  strokeWidth : string;
  fill : string;
  stroke : string
}.

Inductive Overlay : Type :=
| Svg (circles : list Circle)
| EmptyView.

(** The template literal [`skeletonkp_${k.name}`]. *)
Definition circle_key (k : Keypoint) : string :=
  ("skeletonkp_" ++ match name k with Some n => n | None => "undefined" end)
  %string.

(** The filter of [renderPose]: [(k.score ?? 0) > MIN_KEYPOINT_SCORE]. *)
Definition score_above_min (k : Keypoint) : bool :=
  MIN_KEYPOINT_SCORE <? match score k with Some s => s | None => 0 end.

(** The [map] callback of [renderPose] (lines 241-264). *)
Definition renderKeypoint (d : Display) (st : AppState) (k : Keypoint)
    : Circle :=
  let flipX := IS_ANDROID (os d) || CameraType_eqb (cameraType st) back in
  let px := if flipX then getOutputTensorWidth d - x k else x k in
  let py := y k in
  {| key := circle_key k;
     cx := px / getOutputTensorWidth d
           * (if isPortrait d then CAM_PREVIEW_WIDTH d
              else CAM_PREVIEW_HEIGHT d);
     cy := py / getOutputTensorHeight d
           * (if isPortrait d then CAM_PREVIEW_HEIGHT d
              else CAM_PREVIEW_WIDTH d);
     r := "4"; strokeWidth := "2"; fill := color st; stroke := "white" |}.

(** [renderPose] (lines 237-270). *)
Definition renderPose (d : Display) (st : AppState) : Overlay :=
  match poses st with
  | Some (pose :: _) =>
      Svg (map (renderKeypoint d st)
               (filter score_above_min (keypoints pose)))
  | _ => EmptyView
  end.

Definition overlay_circles (o : Overlay) : list Circle :=
  match o with
  | Svg cs => cs
  | EmptyView => []
  end.

(** The text of [renderAligned] (lines 279-285). *)
Definition renderAligned (st : AppState) : string :=
  ((if aligned st then "" else "Not ") ++ "Aligned")%string.

(** The text of [renderCameraTypeSwitcher] (lines 287-299). *)
Definition renderCameraTypeSwitcher (st : AppState) : string :=
  ("Switch to" ++ " "
   ++ (if CameraType_eqb (cameraType st) front then "back" else "front")
   ++ " camera")%string.

(** The camera a label of the switcher names. *)
Definition camera_name (c : CameraType) : string :=
  match c with front => "front" | back => "back" end.

(** *** The animation-frame handle [rafId]

    [rafId.current] is [null] (here [None]), 0 once the loop is cancelled,
    or the positive handle [requestAnimationFrame] returned. *)

Inductive FrameEffect : Type :=
| cancelAnimationFrame (id : Z)
| updatePreview
| endFrameEXP
| requestAnimationFrame.

(** The cleanup of the second [useEffect] (lines 117-125). *)
Definition unmount (rafId : option Z) : option Z * list FrameEffect :=
  match rafId with
  | Some id =>
      if negb (id =? 0)%Z then (Some 0%Z, [cancelAnimationFrame id])
      else (rafId, [])
  | None => (rafId, [])
  end.

(** The end of an iteration of [loop] (lines 221-231); [handle_id] is the
    handle the next [requestAnimationFrame] returns. *)
Definition loopEnd (handle_id : positive) (rafId : option Z)
    : option Z * list FrameEffect :=
  match rafId with
  | Some 0%Z => (rafId, [])
  | _ =>
      ((Some (Zpos handle_id)),
       (if negb AUTO_RENDER then [updatePreview; endFrameEXP] else [])
       ++ [requestAnimationFrame])
  end.

Inductive FrameEvent : Type :=
| IterationEnds (handle_id : positive)
| Unmounts.

Definition frameStep (rafId : option Z) (ev : FrameEvent)
    : option Z * list FrameEffect :=
  match ev with
  | IterationEnds h => loopEnd h rafId
  | Unmounts => unmount rafId
  end.

(** The handle and the effects, in order, after a sequence of events. *)
Fixpoint frameRun (rafId : option Z) (evs : list FrameEvent)
    : option Z * list FrameEffect :=
  match evs with
  | [] => (rafId, [])
  | ev :: rest =>
      let '(r1, e1) := frameStep rafId ev in
      let '(r2, e2) := frameRun r1 rest in
      (r2, e1 ++ e2)
  end.

(** The number of camera switches among the events. *)
Fixpoint count_switches (evs : list Event) : nat :=
  match evs with
  | [] => 0
  | SwitchCamera _ :: rest => S (count_switches rest)
  | Frame _ _ :: rest => count_switches rest
  end.

(** The camera type captured by the handler of the last switch. *)
Fixpoint last_switch (evs : list Event) : option CameraType :=
  match evs with
  | [] => None
  | SwitchCamera c :: rest =>
      match last_switch rest with
      | Some c' => Some c'
      | None => Some c
      end
  | Frame _ _ :: rest => last_switch rest
  end.

(** Every switch of the events is pressed on the handler of a render of
    the current camera, which is [cam] at the start. *)
Fixpoint switches_fresh (cam : CameraType) (evs : list Event) : bool :=
  match evs with
  | [] => true
  | SwitchCamera c :: rest =>
      CameraType_eqb c cam
      && switches_fresh (match cam with front => back | back => front end)
           rest
  | Frame _ _ :: rest => switches_fresh cam rest
  end.

(** [Number.isFinite]. *)
Definition Number_isFinite (v : float) : bool :=
  match Prim2SF v with
  | S754_zero _ | S754_finite _ _ _ => true
  | _ => false
  end.

(** One of the coordinates of a key point is NaN. *)
Definition has_nan (k : Keypoint) : bool := is_nan (x k) || is_nan (y k).

(** A float, as the IEEE datum it is, carries no negative sign unless it is
    a zero: it is NaN, a zero, positive or plus infinity. *)
Definition sf_nonneg (f : spec_float) : Prop :=
  match f with
  | S754_nan | S754_zero _ => True
  | S754_infinity s | S754_finite s _ _ => s = false
  end.

(** A front-camera frame in which the pose model produced NaN for the
    nose's abscissa. *)
Definition pose_nan_nose : Pose :=
  pose_of [kp "left_ear" 0 0; kp "right_ear" 10 0; kp "nose" nan 3].

(** The other camera. *)
Definition other_camera (c : CameraType) : CameraType :=
  match c with front => back | back => front end.

(** Displays used to evaluate the geometry. *)
Definition iphone_landscape : Display :=
  {| os := ios; orientation := Some LANDSCAPE_LEFT; window_width := 390 |}.

Definition android_portrait : Display :=
  {| os := android; orientation := Some PORTRAIT_UP; window_width := 360 |}.

(** A key point reflected in the vertical axis of the output tensor. *)
Definition mirrored (d : Display) (k : Keypoint) : Keypoint :=
  {| x := getOutputTensorWidth d - x k; y := y k;
     score := score k; name := name k |}.

(** ** The recorder application (the second source file)

    A second [App] component: it asks for the camera, microphone and media
    library permissions, records a video, and offers to share, save or
    discard it.  Its state cells are the fields of [State]; the calls into
    the platform are recorded as [Effect]s, and what a platform promise
    does (resolve or reject) is an input. *)

Module Recorder.

(** The object [recordAsync] resolves to. *)
Record Media : Type := mkMedia { uri : string }.

(** The five [useState()] cells, all [undefined] at first (lines 11-15). *)
Record State : Type := mkState {
  hasCameraPermission : option bool;
  hasAudioPermission : option bool;
  hasMediaLibraryPermission : option bool;
  photo : option Media;
  video : option Media
}.

Definition initialState : State :=
  {| hasCameraPermission := None; hasAudioPermission := None;
     hasMediaLibraryPermission := None; photo := None; video := None |}.

Definition setHasCameraPermission (b : bool) (st : State) : State :=
  {| hasCameraPermission := Some b;
     hasAudioPermission := hasAudioPermission st;
     hasMediaLibraryPermission := hasMediaLibraryPermission st;
     photo := photo st; video := video st |}.

Definition setHasAudioPermission (b : bool) (st : State) : State :=
  {| hasCameraPermission := hasCameraPermission st;
     hasAudioPermission := Some b;
     hasMediaLibraryPermission := hasMediaLibraryPermission st;
     photo := photo st; video := video st |}.

Definition setHasMediaLibraryPermission (b : bool) (st : State) : State :=
  {| hasCameraPermission := hasCameraPermission st;
     hasAudioPermission := hasAudioPermission st;
     hasMediaLibraryPermission := Some b;
     photo := photo st; video := video st |}.

Definition setPhoto (p : option Media) (st : State) : State :=
  {| hasCameraPermission := hasCameraPermission st;
     hasAudioPermission := hasAudioPermission st;
     hasMediaLibraryPermission := hasMediaLibraryPermission st;
     photo := p; video := video st |}.

Definition setVideo (v : option Media) (st : State) : State :=
  {| hasCameraPermission := hasCameraPermission st;
     hasAudioPermission := hasAudioPermission st;
     hasMediaLibraryPermission := hasMediaLibraryPermission st;
     photo := photo st; video := v |}.

(** JavaScript truthiness of a cell holding [undefined] or a boolean. *)
Definition truthy (o : option bool) : bool :=
  match o with Some true => true | _ => false end.

(** [status.status === 'granted'] *)
Definition granted (status : string) : bool := String.eqb status "granted".

(** The effect of lines 17-26, given the three statuses the platform
    answers with. *)
Definition requestPermissions (cameraStatus micStatus mediaStatus : string)
    (st : State) : State :=
  setHasMediaLibraryPermission (granted mediaStatus)
    (setHasAudioPermission (granted micStatus)
       (setHasCameraPermission (granted cameraStatus) st)).

(** The calls into the platform. *)
Inductive Effect : Type :=
| recordAsync (quality : string)
| stopRecordingCall
| shareAsync (u : string)
| saveToLibraryAsync (u : string)
| console_warn (err : string).

(** What an awaited promise does. *)
Inductive Outcome (A : Type) : Type :=
| resolved (a : A)
| rejected (err : string).

Arguments resolved {A} a.
Arguments rejected {A} err.

(** Lines 36-46, up to the [await]: [recordAsync] is called and the
    handler waits.  [cameraRef_current] tells whether [cameraRef.current]
    is set. *)
Definition startRecording_call (cameraRef_current : bool) (st : State)
    : State * list Effect :=
  if cameraRef_current then (st, [recordAsync "720p"]) else (st, []).

(** Lines 36-46, after the [await]: what runs when the promise of
    [recordAsync] settles, on the state of that moment. *)
Definition startRecording_settle (outcome : Outcome Media) (st : State)
    : State * list Effect :=
  match outcome with
  | resolved newVideo => (setVideo (Some newVideo) st, [])
  | rejected err => (st, [console_warn err])
  end.

(** The whole of [startRecording] when nothing else happens before the
    promise settles. *)
Definition startRecording (cameraRef_current : bool)
    (outcome : Outcome Media) (st : State) : State * list Effect :=
  if cameraRef_current then
    let '(st1, e1) := startRecording_call true st in
    let '(st2, e2) := startRecording_settle outcome st1 in
    (st2, e1 ++ e2)
  else (st, []).

(** Lines 48-52. *)
Definition stopRecording (cameraRef_current : bool) (st : State)
    : State * list Effect :=
  if cameraRef_current then (st, [stopRecordingCall]) else (st, []).

(** Lines 54-62. *)
Definition shareMedia (media : option Media) (outcome : Outcome unit)
    (st : State) : State * list Effect :=
  match media with
  | Some m =>
      match outcome with
      | resolved _ => (st, [shareAsync (uri m)])
      | rejected err => (st, [shareAsync (uri m); console_warn err])
      end
  | None => (st, [])
  end.

(** Lines 64-72. *)
Definition saveMediaToLibrary (media : option Media) (outcome : Outcome unit)
    (st : State) : State * list Effect :=
  match media, truthy (hasMediaLibraryPermission st) with
  | Some m, true =>
      match outcome with
      | resolved _ => (st, [saveToLibraryAsync (uri m)])
      | rejected err => (st, [saveToLibraryAsync (uri m); console_warn err])
      end
  | _, _ => (st, [])
  end.

(** Lines 74-77. *)
Definition discardMedia (st : State) : State :=
  setVideo None (setPhoto None st).

Inductive Button : Type :=
| Share | Save | Discard | Record | StopRecording.

(** What the component returns (lines 28-100). *)
Inductive Screen : Type :=
| RequestingPermissions
| PermissionNotGranted
| Preview (source : string) (buttons : list Button)
| CameraScreen (buttons : list Button).

Definition render (st : State) : Screen :=
  match hasCameraPermission st with
  | None => RequestingPermissions
  | Some false => PermissionNotGranted
  | Some true =>
      match video st with
      | Some v =>
          Preview (uri v)
            ([Share]
             ++ (if truthy (hasMediaLibraryPermission st) then [Save] else [])
             ++ [Discard])
      | None => CameraScreen [Record; StopRecording]
      end
  end.

Definition buttons (s : Screen) : list Button :=
  match s with
  | Preview _ bs | CameraScreen bs => bs
  | _ => []
  end.

(** What the platform does when a button's handler runs. *)
Record World : Type := mkWorld {
  cameraRef_current : bool;
  sharing : Outcome unit;
  saving : Outcome unit
}.

(** The [onPress] of each button (lines 83-96).  The handler of Record
    runs up to its [await]; the rest of it runs at the event
    [RecordingSettles]. *)
Definition press (b : Button) (w : World) (st : State)
    : State * list Effect :=
  match b with
  | Share => shareMedia (video st) (sharing w) st
  | Save => saveMediaToLibrary (video st) (saving w) st
  | Discard => (discardMedia st, [])
  | Record => startRecording_call (cameraRef_current w) st
  | StopRecording => stopRecording (cameraRef_current w) st
  end.

Inductive Event : Type :=
| PermissionsAnswered (cameraStatus micStatus mediaStatus : string)
| Pressed (b : Button) (w : World)
| RecordingSettles (outcome : Outcome Media).

Definition handle (st : State) (ev : Event) : State * list Effect :=
  match ev with
  | PermissionsAnswered c m l => (requestPermissions c m l st, [])
  | Pressed b w => press b w st
  | RecordingSettles outcome => startRecording_settle outcome st
  end.

(** The state and the platform calls, in order, after a sequence of
    events.  Handlers are run whether or not their button is on the screen,
    and a recording may settle at any moment, which covers every
    interleaving of the asynchronous handlers. *)
Fixpoint run (st : State) (evs : list Event) : State * list Effect :=
  match evs with
  | [] => (st, [])
  | ev :: rest =>
      let '(st1, e1) := handle st ev in
      let '(st2, e2) := run st1 rest in
      (st2, e1 ++ e2)
  end.

(** The media-library permission is granted by no event of the list. *)
Definition library_never_granted (evs : list Event) : bool :=
  forallb (fun ev =>
             match ev with
             | PermissionsAnswered _ _ l => negb (granted l)
             | Pressed _ _ | RecordingSettles _ => true
             end) evs.

Definition is_save_call (e : Effect) : bool :=
  match e with saveToLibraryAsync _ => true | _ => false end.

End Recorder.

(** ** What "floored" and "Euclidean" mean

    A finite double is [(-1)^s * m * 2^e].  [float_to_Z] reads the integer a
    double is, when it is one; [floor_of_value] is the floor of its value,
    computed on integers ([Z.div] rounds towards minus infinity). *)

Definition sf_to_Z (f : spec_float) : option Z :=
  match f with
  | S754_zero _ => Some 0%Z
  | S754_finite s m e =>
      if (0 <=? e)%Z then Some (cond_Zopp s (Zpos m * 2 ^ e))
      else if (Zpos m mod 2 ^ (- e) =? 0)%Z
           then Some (cond_Zopp s (Zpos m / 2 ^ (- e)))
           else None
  | _ => None
  end.

Definition float_to_Z (f : float) : option Z := sf_to_Z (Prim2SF f).

Definition floor_of_value (f : float) : option Z :=
  match Prim2SF f with
  | S754_zero _ => Some 0%Z
  | S754_finite s m e =>
      Some (if (0 <=? e)%Z then cond_Zopp s (Zpos m) * 2 ^ e
            else cond_Zopp s (Zpos m) / 2 ^ (- e))%Z
  | _ => None
  end.

(** The double of an integer of small magnitude. *)
Definition Z2F (z : Z) : float :=
  if (z <? 0)%Z then - of_uint63 (Uint63.of_Z (- z))
  else of_uint63 (Uint63.of_Z z).

(** The integers [lo], [lo + 1], ..., [lo + n - 1]. *)
Definition zrange (lo : Z) (n : nat) : list Z :=
  map (fun i => (lo + Z.of_nat i)%Z) (seq 0 n).

(** The largest coordinate of the output tensor (its height on iOS). *)
Definition TENSOR_MAX : nat := 320.

(** [f i j] holds for all integers [0 <= i, j <= N]. *)
Definition grid_forall (N : nat) (f : Z -> Z -> bool) : bool :=
  forallb (fun i => forallb (f i) (zrange 0 (N + 1))) (zrange 0 (N + 1)).

(** The floored root of the sum of the squares of the doubles [i] and [j]
    is the double of the integer square root of [i^2 + j^2]. *)
Definition root_check (i j : Z) : bool :=
  PrimFloat.Leibniz.eqb
    (JS.Math_floor (JS.Math_sqrt (JS.sq (Z2F i) + JS.sq (Z2F j))))
    (Z2F (Z.sqrt (i * i + j * j))).

(** The difference of the doubles [b] and [a] is the double of the
    difference. *)
Definition difference_check (a b : Z) : bool :=
  PrimFloat.Leibniz.eqb (Z2F b - Z2F a) (Z2F (b - a)).

(** Front-camera frames with the nose off the axis of the ears: at (12,7)
    it is [sqrt 98], about 9.9, away from the midpoint (5,0); at (13,6)
    exactly 10. *)
Definition pose_nose_diagonal : Pose :=
  pose_of [kp "left_ear" 0 0; kp "right_ear" 10 0; kp "nose" 12 7].

Definition pose_nose_at_ten : Pose :=
  pose_of [kp "left_ear" 0 0; kp "right_ear" 10 0; kp "nose" 13 6].

(** Shoulders on a diagonal: from (10,20) to (70,99) is [sqrt 9841], about
    99.2; to (70,100) exactly 100. *)
Definition pose_shoulders_diagonal (right_y : float) : Pose :=
  pose_of [kp "left_shoulder" 10 20; kp "right_shoulder" 70 right_y].

(** A front-camera frame with the shoulders 50 apart and the nose 20 away
    from the midpoint of the ears. *)
Definition pose_shoulders_near_nose_far : Pose :=
  pose_of [kp "left_shoulder" 0 0; kp "right_shoulder" 50 0;
           kp "left_ear" 0 0; kp "right_ear" 10 0; kp "nose" 5 20].

(** ** The text of [findAngle]

    What a function can depend on is a property of its text.  The body of
    [findAngle] (lines 474-475) is kept as syntax in a small expression
    language that also has what the rest of the file uses: variables from
    outside the function and the two clocks. *)

Module Syntax.

Inductive Param : Type := x1 | y1 | x2 | y2.

Inductive Expr : Type :=
| Lit (c : float)
| Par (p : Param)
| Loc (id : string)
| Outer (id : string)
| Date_now
| performance_now
| Math_PI
| Neg (e : Expr)
| Add (a b : Expr)
| Sub (a b : Expr)
| Mul (a b : Expr)
| Div (a b : Expr)
| Pow2 (e : Expr)
| Math_sqrt (e : Expr)
| Math_acos (e : Expr)
| Math_floor (e : Expr).

(** A function body: [const id = e; ...; return e]. *)
Inductive Body : Type :=
| Const (id : string) (e : Expr) (rest : Body)
| Return (e : Expr).

(** Everything outside a call: the variables in scope around the function
    and the readings of the clocks. *)
Record Outside : Type := mkOutside {
  variables : string -> option float;
  Date_now_value : float;
  performance_now_value : float
}.

Definition lookup (id : string) (locals : list (string * float))
    : option float :=
  match find (fun b => String.eqb (fst b) id) locals with
  | Some b => Some (snd b)
  | None => None
  end.

Definition lift1 (f : float -> float) (a : option float) : option float :=
  match a with Some v => Some (f v) | None => None end.

Definition lift2 (f : float -> float -> float) (a b : option float)
    : option float :=
  match a, b with Some v, Some w => Some (f v w) | _, _ => None end.

(** The value of an expression; [None] is a [ReferenceError]. *)
Fixpoint eval (acos : float -> float) (args : Param -> float)
    (out : Outside) (locals : list (string * float)) (e : Expr)
    : option float :=
  let ev := eval acos args out locals in
  match e with
  | Lit c => Some c
  | Par p => Some (args p)
  | Loc id => lookup id locals
  | Outer id => variables out id
  | Date_now => Some (Date_now_value out)
  | performance_now => Some (performance_now_value out)
  | Math_PI => Some JS.Math_PI
  | Neg a => lift1 PrimFloat.opp (ev a)
  | Add a b => lift2 PrimFloat.add (ev a) (ev b)
  | Sub a b => lift2 PrimFloat.sub (ev a) (ev b)
  | Mul a b => lift2 PrimFloat.mul (ev a) (ev b)
  | Div a b => lift2 PrimFloat.div (ev a) (ev b)
  | Pow2 a => lift1 JS.sq (ev a)
  | Math_sqrt a => lift1 JS.Math_sqrt (ev a)
  | Math_acos a => lift1 acos (ev a)
  | Math_floor a => lift1 JS.Math_floor (ev a)
  end.

Fixpoint exec (acos : float -> float) (args : Param -> float)
    (out : Outside) (locals : list (string * float)) (b : Body)
    : option float :=
  match b with
  | Const id e rest =>
      match eval acos args out locals e with
      | Some v => exec acos args out ((id, v) :: locals) rest
      | None => None
      end
  | Return e => eval acos args out locals e
  end.

(** The expression reads something outside the call. *)
Fixpoint reads_outside (e : Expr) : bool :=
  match e with
  | Outer _ | Date_now | performance_now => true
  | Lit _ | Par _ | Loc _ | Math_PI => false
  | Neg a | Pow2 a | Math_sqrt a | Math_acos a | Math_floor a =>
      reads_outside a
  | Add a b | Sub a b | Mul a b | Div a b =>
      reads_outside a || reads_outside b
  end.

Fixpoint body_reads_outside (b : Body) : bool :=
  match b with
  | Const _ e rest => reads_outside e || body_reads_outside rest
  | Return e => reads_outside e
  end.

(** The arguments of a call. *)
Definition call (a b c d : float) (p : Param) : float :=
  match p with x1 => a | y1 => b | x2 => c | y2 => d end.

(** Lines 474-475. *)
Definition findAngle_body : Body :=
  Const "angle"
    (Math_acos
       (Div (Mul (Sub (Par y2) (Par y1)) (Neg (Par y1)))
            (Mul (Math_sqrt (Add (Pow2 (Sub (Par x2) (Par x1)))
                                 (Pow2 (Sub (Par y2) (Par y1)))))
                 (Par y1))))
    (Return (Math_floor (Mul (Loc "angle") (Div (Lit 180) Math_PI)))).

(** For contrast, the frame rate of lines 136-149:
    [Math.floor(1000 / (Date.now() - startTime))] with
    [startTime = performance.now()]. *)
Definition fps_body : Body :=
  Const "startTime" performance_now
    (Const "currFps" (Div (Lit 1000) (Sub Date_now (Loc "startTime")))
       (Return (Math_floor (Loc "currFps")))).

End Syntax.

(** ** The numeric model on known values *)

Example Math_floor_values :
  map JS.Math_floor [3.7; -3.7; 0.5; -0.5; 20.556; 1e300; infinity]
  = [3; -4; 0; -1; 20; 1e300; infinity].
Proof. reflexivity. Qed.

(** NaN and the negative zero are returned as they are. *)
Example Math_floor_special :
  map Prim2SF (map JS.Math_floor [nan; -0]) = [S754_nan; S754_zero true].
Proof. reflexivity. Qed.

Example acos_values :
  map Fdlibm.acos [1; 0.5; 0; -0.5; -1; 2; nan]
  = [0; 0x1.0c152382d7366p+0; 0x1.921fb54442d18p+0; 0x1.0c152382d7366p+1;
     0x1.921fb54442d18p+1; nan; nan].
Proof. reflexivity. Qed.

(** The distances of the specification's tests 2 to 5. *)
Example findDistance_values :
  findDistance 5 0 5 3 = 3 /\ findDistance 5 0 5 20 = 20 /\
  findDistance 0 0 50 0 = 50 /\ findDistance 0 0 150 0 = 150.
Proof. repeat split. Qed.

(** Test 3: the nose at (5,20) is 20 away from the ears' midpoint, and the
    frame ends not aligned and red. *)
Example front_camera_test3 :
  let st' := detectPosture Fdlibm.acos front [pose_nose_far] initialState in
  aligned st' = false /\ color st' = "red"%string.
Proof. split; reflexivity. Qed.

(** ** Basic facts about the three steps of a frame *)

Lemma shoulderCheck_color (a b : option Keypoint) (st : AppState) :
  color (shoulderCheck a b st) = color st.
Proof.
  unfold shoulderCheck.
  destruct a as [ls|], b as [rs|]; try reflexivity.
  destruct (findDistance _ _ _ _ <? 100); reflexivity.
Qed.

Lemma shoulderCheck_poses (a b : option Keypoint) (st : AppState) :
  poses (shoulderCheck a b st) = poses st.
Proof.
  unfold shoulderCheck.
  destruct a as [ls|], b as [rs|]; try reflexivity.
  destruct (findDistance _ _ _ _ <? 100); reflexivity.
Qed.

Lemma shoulderCheck_cameraType (a b : option Keypoint) (st : AppState) :
  cameraType (shoulderCheck a b st) = cameraType st.
Proof.
  unfold shoulderCheck.
  destruct a as [ls|], b as [rs|]; try reflexivity.
  destruct (findDistance _ _ _ _ <? 100); reflexivity.
Qed.

Lemma frontBranch_back (le re n : option Keypoint) (st : AppState) :
  frontBranch back le re n st = st.
Proof. reflexivity. Qed.

Lemma backBranch_front (acos : float -> float)
    (ls rs le re lh rh : option Keypoint) (st : AppState) :
  backBranch acos front ls rs le re lh rh st = st.
Proof. reflexivity. Qed.

Lemma frontBranch_fires (le re n : Keypoint) (st : AppState) :
  frontBranch front (Some le) (Some re) (Some n) st =
  if findDistance ((x le + x re) / 2) ((y le + y re) / 2) (x n) (y n) <? 10
  then setAligned true (setColor "green" st)
  else setAligned false (setColor "red" st).
Proof. reflexivity. Qed.

Lemma backBranch_fires (acos : float -> float)
    (ls rs le re lh rh : Keypoint) (st : AppState) :
  backBranch acos back (Some ls) (Some rs) (Some le) (Some re)
             (Some lh) (Some rh) st =
  if (findAngle acos (x ls) (y ls) (x le) (y le) <? 40)
     && (findAngle acos (x lh) (y lh) (x ls) (y ls) <? 10)
  then setAligned true (setColor "green" st)
  else setAligned false (setColor "red" st).
Proof. reflexivity. Qed.

(** ** IEEE facts about the operations [findDistance] and [findAngle] use *)

Lemma binary_round_aux_opp (s : bool) (m e : Z) (l : location) :
  binary_round_aux prec emax (negb s) m e l =
  SFopp (binary_round_aux prec emax s m e l).
Proof.
  unfold binary_round_aux.
  destruct (shr_fexp prec emax m e l) as [mrs' e'].
  destruct (shr_fexp prec emax _ e' loc_Exact) as [mrs'' e''].
  destruct (shr_m mrs''); try reflexivity.
  destruct (e'' <=? emax - prec)%Z; reflexivity.
Qed.

Lemma binary_round_aux_sign (s : bool) (m e : Z) (l : location) :
  match binary_round_aux prec emax s m e l with
  | S754_nan => True
  | S754_zero s' | S754_infinity s' | S754_finite s' _ _ => s' = s
  end.
Proof.
  unfold binary_round_aux.
  destruct (shr_fexp prec emax m e l) as [mrs' e'].
  destruct (shr_fexp prec emax _ e' loc_Exact) as [mrs'' e''].
  destruct (shr_m mrs''); try exact I; try reflexivity.
  destruct (e'' <=? emax - prec)%Z; reflexivity.
Qed.

Lemma binary_normalize_opp (z e : Z) :
  z <> 0%Z ->
  binary_normalize prec emax (- z) e false =
  SFopp (binary_normalize prec emax z e false).
Proof.
  intros Hz. destruct z as [|p|p]; [contradiction| |];
    cbn [Z.opp binary_normalize]; unfold binary_round;
    destruct (shl_align p e _) as [mz ez].
  - exact (binary_round_aux_opp false (Zpos mz) ez loc_Exact).
  - exact (binary_round_aux_opp true (Zpos mz) ez loc_Exact).
Qed.

(** Swapping the operands of a subtraction negates the result, except
    that a difference of zero is [+0] both ways. *)
Lemma SFsub_swap (a b : spec_float) :
  SF64sub b a = SFopp (SF64sub a b) \/
  (SF64sub a b = S754_zero false /\ SF64sub b a = S754_zero false).
Proof.
  destruct a as [sa | sa | | sa ma ea], b as [sb | sb | | sb mb eb];
    try (left; reflexivity);
    try (destruct sa, sb; (left; reflexivity) || (right; split; reflexivity)).
  unfold SF64sub, SFsub. rewrite (Z.min_comm eb ea).
  set (za := cond_Zopp sa (Zpos (fst (shl_align ma ea (Z.min ea eb))))).
  set (zb := cond_Zopp sb (Zpos (fst (shl_align mb eb (Z.min ea eb))))).
  replace (zb - za)%Z with (- (za - zb))%Z by ring.
  destruct (Z.eq_dec (za - zb) 0) as [H0 | Hn].
  - right. rewrite H0. split; reflexivity.
  - left. apply binary_normalize_opp, Hn.
Qed.

Lemma SFmul_opp_self (u : spec_float) :
  SF64mul (SFopp u) (SFopp u) = SF64mul u u.
Proof. destruct u as [[] | [] | | [] m e]; reflexivity. Qed.

Lemma sq_sub_swap (a b : float) : JS.sq (b - a) = JS.sq (a - b).
Proof.
  apply Prim2SF_inj. unfold JS.sq.
  rewrite !FloatAxioms.mul_spec, !FloatAxioms.sub_spec.
  destruct (SFsub_swap (Prim2SF a) (Prim2SF b)) as [H | [Ha Hb]].
  - rewrite H. apply SFmul_opp_self.
  - rewrite Ha, Hb. reflexivity.
Qed.

(** ** [Math.floor] computes the floor *)

Lemma digits2_pos_size (p : positive) : digits2_pos p = Pos.size p.
Proof. induction p; cbn; congruence. Qed.

Lemma digits2_pos_iter_xO (p k : positive) :
  digits2_pos (Pos.iter xO p k) = (digits2_pos p + k)%positive.
Proof.
  induction k using Pos.peano_ind.
  - cbn. rewrite Pos.add_1_r. reflexivity.
  - rewrite Pos.iter_succ. cbn [digits2_pos]. rewrite IHk.
    rewrite Pos.add_succ_r. reflexivity.
Qed.

Lemma iter_xO_value (p k : positive) :
  Zpos (Pos.iter xO p k) = (Zpos p * 2 ^ Zpos k)%Z.
Proof.
  induction k using Pos.peano_ind.
  - cbn. lia.
  - rewrite Pos.iter_succ, Pos2Z.inj_xO, IHk, Pos2Z.inj_succ,
      Z.pow_succ_r by lia.
    ring.
Qed.

Lemma digits2_pos_le_53 (p : positive) :
  (Zpos p < 2 ^ 53)%Z -> (Zpos (digits2_pos p) <= 53)%Z.
Proof.
  intros Hp. rewrite digits2_pos_size.
  pose proof (Pos.size_le p) as Hs.
  apply Pos2Z.pos_le_pos in Hs. rewrite Pos2Z.inj_pow in Hs.
  change (Zpos p~0) with (2 * Zpos p)%Z in Hs.
  assert (H54 : (2 ^ Zpos (Pos.size p) < 2 ^ 54)%Z).
  { change (2 ^ 54)%Z with (2 * 2 ^ 53)%Z. lia. }
  apply Z.pow_lt_mono_r_iff in H54; lia.
Qed.

Lemma digits2_pos_lt_pow (p : positive) :
  (Zpos p < 2 ^ Zpos (digits2_pos p))%Z.
Proof.
  rewrite digits2_pos_size. pose proof (Pos.size_gt p) as Hs.
  apply Pos2Z.pos_lt_pos in Hs. rewrite Pos2Z.inj_pow in Hs. exact Hs.
Qed.

(** Rounding an integer of at most 53 bits only aligns it. *)
Lemma binary_round_small (s : bool) (p : positive) :
  (Zpos (digits2_pos p) <= 53)%Z ->
  binary_round prec emax s p 0 =
  S754_finite s
    (match (Zpos (digits2_pos p) - 53)%Z with
     | Zneg k => Pos.iter xO p k
     | _ => p
     end)
    (Zpos (digits2_pos p) - 53).
Proof.
  intros Hd. unfold binary_round.
  assert (Hf : fexp prec emax (Zpos (digits2_pos p) + 0)
               = (Zpos (digits2_pos p) - 53)%Z).
  { unfold fexp, SpecFloat.emin, prec, emax. lia. }
  rewrite Hf. unfold shl_align. rewrite Z.sub_0_r.
  destruct (Zpos (digits2_pos p) - 53)%Z as [|k|k] eqn:Ek; try lia.
  - unfold binary_round_aux, shr_fexp. cbn [Zdigits2].
    assert (Hd53 : Zpos (digits2_pos p) = 53%Z) by lia.
    rewrite Hd53. cbn [shr_record_of_loc].
    change (fexp prec emax (53 + 0) - 0)%Z with 0%Z. cbn [shr].
    cbn [shr_m loc_of_shr_record round_nearest_even Zdigits2].
    rewrite Hd53. change (fexp prec emax (53 + 0) - 0)%Z with 0%Z.
    cbn [shr shr_record_of_loc shr_m]. reflexivity.
  - unfold binary_round_aux, shr_fexp. cbn [Zdigits2].
    rewrite digits2_pos_iter_xO.
    assert (Hs : (Zpos (digits2_pos p + k) + Zneg k
                  = Zpos (digits2_pos p))%Z) by lia.
    rewrite Hs.
    assert (Hf2 : (fexp prec emax (Zpos (digits2_pos p)) - Zneg k = 0)%Z).
    { unfold fexp, SpecFloat.emin, prec, emax. lia. }
    rewrite Hf2.
    cbn [shr shr_record_of_loc shr_m loc_of_shr_record round_nearest_even
         Zdigits2].
    rewrite digits2_pos_iter_xO, Hs, Hf2.
    cbn [shr shr_record_of_loc shr_m].
    assert (Hle : (Zneg k <=? emax - prec)%Z = true)
      by (apply Z.leb_le; unfold emax, prec; lia).
    rewrite Hle. reflexivity.
Qed.

Lemma sf_to_Z_round_small (s : bool) (p : positive) :
  (Zpos p < 2 ^ 53)%Z ->
  sf_to_Z (binary_round prec emax s p 0) = Some (cond_Zopp s (Zpos p)).
Proof.
  intros Hp. rewrite binary_round_small by (apply digits2_pos_le_53, Hp).
  pose proof (digits2_pos_le_53 p Hp) as Hd.
  unfold sf_to_Z.
  destruct (Zpos (digits2_pos p) - 53)%Z as [|k|k] eqn:Ek; try lia.
  - cbn [Z.leb Z.compare]. rewrite Z.pow_0_r, Z.mul_1_r. reflexivity.
  - cbn [Z.leb Z.compare Z.opp]. rewrite iter_xO_value.
    rewrite Z.mod_mul by lia. cbn [Z.eqb].
    rewrite Z.div_mul by lia. reflexivity.
Qed.

Lemma to_Z_of_Z_small (q : Z) :
  (0 <= q < 2 ^ 53)%Z -> Uint63.to_Z (Uint63.of_Z q) = q.
Proof.
  intros Hq. rewrite Uint63.of_Z_spec. apply Z.mod_small.
  change Uint63.wB with (2 ^ 63)%Z.
  assert ((2 ^ 53 < 2 ^ 63)%Z) by (apply Z.pow_lt_mono_r; lia). lia.
Qed.

(** The double made from an integer below [2^53] is that integer. *)
Lemma of_uint63_small (q : Z) :
  (0 <= q < 2 ^ 53)%Z ->
  sf_to_Z (Prim2SF (of_uint63 (Uint63.of_Z q))) = Some q /\
  sf_to_Z (Prim2SF (- of_uint63 (Uint63.of_Z q))) = Some (- q)%Z.
Proof.
  intros Hq. rewrite FloatAxioms.opp_spec, FloatAxioms.of_uint63_spec.
  rewrite (to_Z_of_Z_small q Hq).
  destruct q as [|p|p]; try lia.
  - split; reflexivity.
  - cbn [binary_normalize].
    assert (Hp : (Zpos p < 2 ^ 53)%Z) by lia.
    pose proof (sf_to_Z_round_small false p Hp) as H1.
    pose proof (sf_to_Z_round_small true p Hp) as H2.
    split; [exact H1|].
    rewrite binary_round_small by (apply digits2_pos_le_53, Hp).
    cbn [SFopp negb].
    rewrite <- (binary_round_small true) by (apply digits2_pos_le_53, Hp).
    exact H2.
Qed.

Lemma finite_mantissa_bound (v : float) (s : bool) (m : positive) (e : Z) :
  Prim2SF v = S754_finite s m e -> (Zpos m < 2 ^ 53)%Z.
Proof.
  intros E. pose proof (Prim2SF_valid v) as Hv. rewrite E in Hv.
  cbn [SpecFloat.valid_binary] in Hv. unfold bounded in Hv.
  apply andb_true_iff in Hv. destruct Hv as [Hc _].
  unfold canonical_mantissa in Hc. apply Z.eqb_eq in Hc.
  assert (Hd : (Zpos (digits2_pos m) <= 53)%Z).
  { unfold fexp, SpecFloat.emin, prec, emax in Hc. lia. }
  pose proof (digits2_pos_lt_pow m) as Hlt.
  assert (Hpow : (2 ^ Zpos (digits2_pos m) <= 2 ^ 53)%Z)
    by (apply Z.pow_le_mono_r; lia).
  lia.
Qed.

(** [Math.floor] of a finite double is the double of the floor of its
    value; zeros, infinities and NaN are returned as they are. *)
Lemma Math_floor_is_floor (v : float) :
  match floor_of_value v with
  | Some n => float_to_Z (JS.Math_floor v) = Some n
  | None => JS.Math_floor v = v
  end.
Proof.
  unfold floor_of_value, float_to_Z, JS.Math_floor.
  destruct (Prim2SF v) as [s | s | | s m e] eqn:E; try reflexivity.
  - rewrite E. reflexivity.
  - pose proof (finite_mantissa_bound v s m e E) as Hm.
    destruct (0 <=? e)%Z eqn:He.
    + rewrite E. cbn [sf_to_Z]. rewrite He. f_equal.
      destruct s; cbn [cond_Zopp]; ring.
    + apply Z.leb_gt in He.
      assert (Hk : (0 < - e)%Z) by lia.
      assert (Hpow : (2 <= 2 ^ (- e))%Z).
      { change 2%Z with (2 ^ 1)%Z at 1. apply Z.pow_le_mono_r; lia. }
      rewrite Z.shiftr_div_pow2, Z.shiftl_mul_pow2 by lia.
      pose proof (Z.div_mod (Zpos m) (2 ^ (- e))) as Hdm.
      pose proof (Z.mod_pos_bound (Zpos m) (2 ^ (- e))) as Hmb.
      set (q := (Zpos m / 2 ^ (- e))%Z) in *.
      set (r := (Zpos m mod 2 ^ (- e))%Z) in *.
      assert (Hq : (0 <= q)%Z) by (apply Z.div_pos; lia).
      assert (Hq53 : (q + 1 < 2 ^ 53)%Z) by nia.
      destruct (q * 2 ^ (- e) =? Zpos m)%Z eqn:Hx.
      * apply Z.eqb_eq in Hx. rewrite E. cbn [sf_to_Z].
        assert (He' : (0 <=? e)%Z = false) by (apply Z.leb_gt; lia).
        rewrite He'. fold r.
        assert (Hr : r = 0%Z) by lia. rewrite Hr. cbn [Z.eqb]. fold q.
        f_equal. destruct s; cbn [cond_Zopp]; [|reflexivity].
        rewrite Z.div_opp_l_z by (fold r; lia). reflexivity.
      * apply Z.eqb_neq in Hx.
        assert (Hr : r <> 0%Z) by lia.
        destruct s; cbn [cond_Zopp].
        -- rewrite (proj2 (of_uint63_small (q + 1) ltac:(lia))).
           f_equal. rewrite Z.div_opp_l_nz by (fold r; lia). fold q. lia.
        -- rewrite (proj1 (of_uint63_small q ltac:(lia))). reflexivity.
Qed.

(** [floor_of_value] is the floor: for a double [(-1)^s * m * 2^e] with a
    fractional part ([e < 0]) it is the integer [n] with
    [n <= (-1)^s * m / 2^(-e) < n + 1]. *)
Lemma floor_of_value_bounds (v : float) (s : bool) (m : positive) (e n : Z) :
  Prim2SF v = S754_finite s m e -> (e < 0)%Z ->
  floor_of_value v = Some n ->
  (n * 2 ^ (- e) <= cond_Zopp s (Zpos m) < (n + 1) * 2 ^ (- e))%Z.
Proof.
  intros E He. unfold floor_of_value. rewrite E.
  assert (He' : (0 <=? e)%Z = false) by (apply Z.leb_gt; lia).
  rewrite He'. intros Hn. injection Hn as Hn. subst n.
  assert (Hpos : (0 < 2 ^ (- e))%Z) by (apply Z.pow_pos_nonneg; lia).
  pose proof (Z.div_mod (cond_Zopp s (Zpos m)) (2 ^ (- e))) as Hdm.
  pose proof (Z.mod_pos_bound (cond_Zopp s (Zpos m)) (2 ^ (- e)) Hpos) as Hmb.
  nia.
Qed.

(** ** [findDistance] on the pixel grid *)

Lemma zrange_In (lo z : Z) (n : nat) :
  (lo <= z < lo + Z.of_nat n)%Z -> In z (zrange lo n).
Proof.
  intros H. unfold zrange. apply in_map_iff.
  exists (Z.to_nat (z - lo)). split; [lia|]. apply in_seq. lia.
Qed.

Lemma grid_forall_spec (N : nat) (f : Z -> Z -> bool) :
  grid_forall N f = true ->
  forall i j : Z,
    (0 <= i <= Z.of_nat N)%Z -> (0 <= j <= Z.of_nat N)%Z -> f i j = true.
Proof.
  unfold grid_forall. intros H i j Hi Hj.
  rewrite forallb_forall in H.
  specialize (H i (zrange_In 0 i (N + 1) ltac:(lia))).
  rewrite forallb_forall in H.
  exact (H j (zrange_In 0 j (N + 1) ltac:(lia))).
Qed.

Lemma roots_ok_tensor : grid_forall TENSOR_MAX root_check = true.
Proof. vm_compute. reflexivity. Qed.

Lemma differences_ok_tensor : grid_forall TENSOR_MAX difference_check = true.
Proof. vm_compute. reflexivity. Qed.

Lemma root_on_grid (i j : Z) :
  (0 <= i <= Z.of_nat TENSOR_MAX)%Z -> (0 <= j <= Z.of_nat TENSOR_MAX)%Z ->
  JS.Math_floor (JS.Math_sqrt (JS.sq (Z2F i) + JS.sq (Z2F j))) =
  Z2F (Z.sqrt (i * i + j * j)).
Proof.
  intros Hi Hj.
  pose proof (grid_forall_spec TENSOR_MAX root_check roots_ok_tensor
                i j Hi Hj) as H.
  unfold root_check in H. apply FloatAxioms.Leibniz.eqb_spec in H. exact H.
Qed.

Lemma difference_on_grid (a b : Z) :
  (0 <= a <= Z.of_nat TENSOR_MAX)%Z -> (0 <= b <= Z.of_nat TENSOR_MAX)%Z ->
  Z2F b - Z2F a = Z2F (b - a).
Proof.
  intros Ha Hb.
  pose proof (grid_forall_spec TENSOR_MAX difference_check
                differences_ok_tensor a b Ha Hb) as H.
  unfold difference_check in H.
  apply FloatAxioms.Leibniz.eqb_spec in H. exact H.
Qed.

Lemma sq_opp (f : float) : JS.sq (- f) = JS.sq f.
Proof.
  apply Prim2SF_inj. unfold JS.sq.
  rewrite !FloatAxioms.mul_spec, FloatAxioms.opp_spec.
  apply SFmul_opp_self.
Qed.

Lemma sq_Z2F_abs (z : Z) : JS.sq (Z2F z) = JS.sq (Z2F (Z.abs z)).
Proof.
  destruct z as [|q|q]; try reflexivity.
  unfold Z2F. cbn [Z.ltb Z.compare Z.abs Z.opp]. apply sq_opp.
Qed.

(** Between points with integer coordinates in the output tensor,
    [findDistance] is the integer square root of the squared Euclidean
    distance: the [n] with [n^2 <= dx^2 + dy^2 < (n+1)^2]. *)
Lemma findDistance_on_grid (px py qx qy : Z) :
  (0 <= px <= Z.of_nat TENSOR_MAX)%Z -> (0 <= py <= Z.of_nat TENSOR_MAX)%Z ->
  (0 <= qx <= Z.of_nat TENSOR_MAX)%Z -> (0 <= qy <= Z.of_nat TENSOR_MAX)%Z ->
  findDistance (Z2F px) (Z2F py) (Z2F qx) (Z2F qy) =
  Z2F (Z.sqrt ((qx - px) * (qx - px) + (qy - py) * (qy - py))).
Proof.
  intros Hpx Hpy Hqx Hqy. unfold findDistance.
  rewrite (difference_on_grid px qx), (difference_on_grid py qy) by assumption.
  rewrite (sq_Z2F_abs (qx - px)), (sq_Z2F_abs (qy - py)).
  rewrite root_on_grid by lia.
  rewrite !Z.abs_square. reflexivity.
Qed.

(** ** Front camera *)

(** C1.  On the front camera, when the first pose has a left ear, a right
    ear and a nose, the classifier takes the floored Euclidean distance from
    the midpoint of the ears to the nose: [findDistance] there is the floor
    of the rounded square root of the sum of the squared differences.  The
    frame ends aligned and green when that distance is below 10, and not
    aligned and red otherwise; nothing else in the state changes.  Between
    points of the pixel grid [findDistance] is the integer square root of
    [dx^2 + dy^2].  With ears at (0,0) and (10,0): the nose at (5,3) is 3
    away, aligned and green; at (5,20) it is 20 away, not aligned and red;
    at (12,7) it is 9 away ([sqrt 98] floored), aligned and green; at (13,6)
    it is 10 away, not aligned and red. *)
Theorem front_camera_classification :
  (forall (acos : float -> float) (pose : Pose) (rest : list Pose)
          (st : AppState) (le re n : Keypoint),
      find_named "left_ear" (keypoints pose) = Some le ->
      find_named "right_ear" (keypoints pose) = Some re ->
      find_named "nose" (keypoints pose) = Some n ->
      let mx := (x le + x re) / 2 in
      let my := (y le + y re) / 2 in
      let root :=
        sqrt ((x n - mx) * (x n - mx) + (y n - my) * (y n - my)) in
      let dist := findDistance mx my (x n) (y n) in
      let st' := detectPosture acos front (pose :: rest) st in
      match floor_of_value root with
      | Some k => float_to_Z dist = Some k
      | None => dist = root
      end /\
      aligned st' = (dist <? 10) /\
      color st' = (if (dist <? 10)%float then "green" else "red")%string /\
      poses st' = poses st /\ cameraType st' = cameraType st)
  /\
  (forall px py qx qy : Z,
      (0 <= px <= Z.of_nat TENSOR_MAX)%Z ->
      (0 <= py <= Z.of_nat TENSOR_MAX)%Z ->
      (0 <= qx <= Z.of_nat TENSOR_MAX)%Z ->
      (0 <= qy <= Z.of_nat TENSOR_MAX)%Z ->
      findDistance (Z2F px) (Z2F py) (Z2F qx) (Z2F qy) =
      Z2F (Z.sqrt ((qx - px) * (qx - px) + (qy - py) * (qy - py))))
  /\
  (forall (acos : float -> float) (st : AppState),
      let after (p : Pose) := detectPosture acos front [p] st in
      (findDistance ((0 + 10) / 2) ((0 + 0) / 2) 5 3 = 3 /\
       aligned (after pose_nose_near) = true /\
       color (after pose_nose_near) = "green"%string) /\
      (findDistance ((0 + 10) / 2) ((0 + 0) / 2) 5 20 = 20 /\
       aligned (after pose_nose_far) = false /\
       color (after pose_nose_far) = "red"%string) /\
      (findDistance ((0 + 10) / 2) ((0 + 0) / 2) 12 7 = 9 /\
       aligned (after pose_nose_diagonal) = true /\
       color (after pose_nose_diagonal) = "green"%string) /\
      (findDistance ((0 + 10) / 2) ((0 + 0) / 2) 13 6 = 10 /\
       aligned (after pose_nose_at_ten) = false /\
       color (after pose_nose_at_ten) = "red"%string)).
Proof.
  split; [|split].
  - intros acos pose rest st le re n Hle Hre Hn mx my root dist st'.
    split.
    + change dist with (JS.Math_floor root). apply Math_floor_is_floor.
    + subst st'. unfold detectPosture.
      rewrite Hle, Hre, Hn, backBranch_front, frontBranch_fires.
      fold mx my dist.
      destruct (dist <? 10);
        cbn [aligned color poses cameraType setAligned setColor];
        rewrite ?shoulderCheck_poses, ?shoulderCheck_cameraType; auto.
  - apply findDistance_on_grid.
  - intros acos st after. subst after. repeat split.
Qed.

Lemma front_camera_classification_witness :
  let st' :=
    detectPosture Fdlibm.acos front [pose_nose_diagonal] initialState in
  float_to_Z (findDistance ((0 + 10) / 2) ((0 + 0) / 2) 12 7) = Some 9%Z /\
  aligned st' = true /\ color st' = "green"%string /\
  poses st' = None /\ cameraType st' = front.
Proof.
  exact (proj1 front_camera_classification Fdlibm.acos pose_nose_diagonal []
           initialState (kp "left_ear" 0 0) (kp "right_ear" 10 0)
           (kp "nose" 12 7) eq_refl eq_refl eq_refl).
Defined.

(** A frame is the shoulder check followed by the two camera branches. *)
Lemma detectPosture_steps (acos : float -> float) (cam : CameraType)
    (pose : Pose) (rest : list Pose) (st : AppState) :
  detectPosture acos cam (pose :: rest) st =
  cameraBranches acos cam (keypoints pose)
    (shoulderCheck (find_named "left_shoulder" (keypoints pose))
       (find_named "right_shoulder" (keypoints pose)) st).
Proof. reflexivity. Qed.

Lemma frontBranch_skipped (cam : CameraType) (kps : list Keypoint)
    (st : AppState) :
  frontGuard cam kps = false ->
  frontBranch cam (find_named "left_ear" kps) (find_named "right_ear" kps)
    (find_named "nose" kps) st = st.
Proof.
  unfold frontGuard, frontBranch.
  destruct (CameraType_eqb cam front); [|reflexivity].
  destruct (find_named "left_ear" kps); [|reflexivity].
  destruct (find_named "right_ear" kps); [|reflexivity].
  destruct (find_named "nose" kps); [|reflexivity].
  discriminate.
Qed.

Lemma backBranch_skipped (acos : float -> float) (cam : CameraType)
    (kps : list Keypoint) (st : AppState) :
  backGuard cam kps = false ->
  backBranch acos cam
    (find_named "left_shoulder" kps) (find_named "right_shoulder" kps)
    (find_named "left_ear" kps) (find_named "right_ear" kps)
    (find_named "left_hip" kps) (find_named "right_hip" kps) st = st.
Proof.
  unfold backGuard, backBranch.
  destruct (CameraType_eqb cam back); [|reflexivity].
  destruct (find_named "left_shoulder" kps); [|reflexivity].
  destruct (find_named "right_shoulder" kps); [|reflexivity].
  destruct (find_named "left_ear" kps); [|reflexivity].
  destruct (find_named "right_ear" kps); [|reflexivity].
  destruct (find_named "left_hip" kps); [|reflexivity].
  destruct (find_named "right_hip" kps); [|reflexivity].
  discriminate.
Qed.

Lemma cameraBranches_skipped (acos : float -> float) (cam : CameraType)
    (kps : list Keypoint) (st : AppState) :
  frontGuard cam kps = false -> backGuard cam kps = false ->
  cameraBranches acos cam kps st = st.
Proof.
  intros Hf Hb. unfold cameraBranches.
  rewrite (frontBranch_skipped _ _ _ Hf). apply backBranch_skipped, Hb.
Qed.

(** C7.  On the front camera, when the first pose lacks the left ear, the
    right ear or the nose, the ear-nose branch returns the state it was
    given, whatever that state is; the frame then consists of the shoulder
    check alone and the colour after the frame is the colour before it. *)
Theorem front_branch_skipped_on_missing_keypoint :
  forall (acos : float -> float) (pose : Pose) (rest : list Pose)
         (st : AppState),
    let kps := keypoints pose in
    find_named "left_ear" kps = None \/
    find_named "right_ear" kps = None \/
    find_named "nose" kps = None ->
    frontBranch front (find_named "left_ear" kps)
      (find_named "right_ear" kps) (find_named "nose" kps) st = st /\
    detectPosture acos front (pose :: rest) st =
      shoulderCheck (find_named "left_shoulder" kps)
        (find_named "right_shoulder" kps) st /\
    color (detectPosture acos front (pose :: rest) st) = color st.
Proof.
  intros acos pose rest st kps Hmiss.
  assert (Hg : frontGuard front kps = false).
  { unfold frontGuard.
    destruct Hmiss as [H | [H | H]]; rewrite H; cbn;
      rewrite ?andb_false_r; reflexivity. }
  assert (Hd : detectPosture acos front (pose :: rest) st =
               shoulderCheck (find_named "left_shoulder" kps)
                 (find_named "right_shoulder" kps) st).
  { rewrite detectPosture_steps. fold kps. unfold cameraBranches.
    rewrite backBranch_front. apply frontBranch_skipped, Hg. }
  repeat split.
  - apply frontBranch_skipped, Hg.
  - exact Hd.
  - rewrite Hd. apply shoulderCheck_color.
Qed.

Lemma front_branch_skipped_on_missing_keypoint_witness :
  let kps := keypoints (pose_shoulders 50) in
  frontBranch front (find_named "left_ear" kps)
    (find_named "right_ear" kps) (find_named "nose" kps) state_red
    = state_red /\
  detectPosture Fdlibm.acos front [pose_shoulders 50] state_red =
    shoulderCheck (find_named "left_shoulder" kps)
      (find_named "right_shoulder" kps) state_red /\
  color (detectPosture Fdlibm.acos front [pose_shoulders 50] state_red)
    = color state_red.
Proof.
  exact (front_branch_skipped_on_missing_keypoint Fdlibm.acos
           (pose_shoulders 50) [] state_red (or_introl eq_refl)).
Defined.

(** ** Back camera *)

(** C2, as the specification words it, fails.  In [pose_leaning] the pair
    (left_hip, left_shoulder) makes an angle of 20 and the pair
    (left_shoulder, left_ear) an angle of 0, so the specification's reading
    (first angle below 40, second below 10) says aligned; the code compares
    the shoulder-ear angle with 40 and the hip-shoulder angle with 10 and
    ends not aligned and red. *)
Lemma back_camera_pairs_counterexample :
  let st' := detectPosture Fdlibm.acos back [pose_leaning] initialState in
  findAngle Fdlibm.acos 100 200 130 120 = 20 /\
  findAngle Fdlibm.acos 130 120 130 90 = 0 /\
  specBackAligned Fdlibm.acos (kp "left_shoulder" 130 120)
    (kp "left_ear" 130 90) (kp "left_hip" 100 200) = true /\
  aligned st' = false /\ color st' = "red"%string.
Proof. vm_compute. repeat split. Qed.

(** C2, amended.  On the back camera, when the first pose has both
    shoulders, both ears and both hips, the neck angle is [findAngle] on the
    pair (left_shoulder, left_ear) and the torso angle is [findAngle] on the
    pair (left_hip, left_shoulder); the frame ends aligned and green exactly
    when the neck angle is below 40 and the torso angle below 10, and not
    aligned and red otherwise.  A neck angle of 39 with a torso angle of 9
    gives aligned; a neck angle of 41 gives not aligned. *)
Theorem back_camera_classification :
  forall (acos : float -> float) (pose : Pose) (rest : list Pose)
         (st : AppState) (ls rs le re lh rh : Keypoint),
    let kps := keypoints pose in
    find_named "left_shoulder" kps = Some ls ->
    find_named "right_shoulder" kps = Some rs ->
    find_named "left_ear" kps = Some le ->
    find_named "right_ear" kps = Some re ->
    find_named "left_hip" kps = Some lh ->
    find_named "right_hip" kps = Some rh ->
    let neckAngle := findAngle acos (x ls) (y ls) (x le) (y le) in
    let torsoAngle := findAngle acos (x lh) (y lh) (x ls) (y ls) in
    let ok := (neckAngle <? 40) && (torsoAngle <? 10) in
    let st' := detectPosture acos back (pose :: rest) st in
    (aligned st' = ok /\
     color st' = (if ok then "green" else "red")%string /\
     poses st' = poses st /\ cameraType st' = cameraType st) /\
    (neckAngle = 39 -> torsoAngle = 9 ->
     aligned st' = true /\ color st' = "green"%string) /\
    (neckAngle = 41 ->
     aligned st' = false /\ color st' = "red"%string).
Proof.
  intros acos pose rest st ls rs le re lh rh kps Hls Hrs Hle Hre Hlh Hrh
         neckAngle torsoAngle ok st'.
  assert (Hst : st' =
                if ok
                then setAligned true (setColor "green"
                       (shoulderCheck (Some ls) (Some rs) st))
                else setAligned false (setColor "red"
                       (shoulderCheck (Some ls) (Some rs) st))).
  { subst st'. rewrite detectPosture_steps. fold kps.
    unfold cameraBranches.
    rewrite frontBranch_back, Hls, Hrs, Hle, Hre, Hlh, Hrh.
    apply backBranch_fires. }
  assert (Hgen : aligned st' = ok /\
                 color st' = (if ok then "green" else "red")%string /\
                 poses st' = poses st /\ cameraType st' = cameraType st).
  { rewrite Hst.
    destruct ok; cbn [aligned color poses cameraType setAligned setColor];
      rewrite ?shoulderCheck_poses, ?shoulderCheck_cameraType; auto. }
  split; [exact Hgen|].
  destruct Hgen as (Ha & Hc & _).
  split.
  - intros Hn Ht. rewrite Ha, Hc. unfold ok. rewrite Hn, Ht. split; reflexivity.
  - intros Hn. rewrite Ha, Hc. unfold ok. rewrite Hn. split; reflexivity.
Qed.

Lemma back_camera_classification_witness :
  let st39 := detectPosture Fdlibm.acos back [pose_back 182] initialState in
  let st41 := detectPosture Fdlibm.acos back [pose_back 188] initialState in
  findAngle Fdlibm.acos 100 150 182 50 = 39 /\
  findAngle Fdlibm.acos 100 150 188 50 = 41 /\
  findAngle Fdlibm.acos 84 250 100 150 = 9 /\
  (aligned st39 = true /\ color st39 = "green"%string) /\
  (aligned st41 = false /\ color st41 = "red"%string).
Proof.
  pose proof (back_camera_classification Fdlibm.acos (pose_back 182) []
                initialState (kp "left_shoulder" 100 150)
                (kp "right_shoulder" 40 150) (kp "left_ear" 182 50)
                (kp "right_ear" 40 50) (kp "left_hip" 84 250)
                (kp "right_hip" 40 250)
                eq_refl eq_refl eq_refl eq_refl eq_refl eq_refl)
    as (_ & H39 & _).
  pose proof (back_camera_classification Fdlibm.acos (pose_back 188) []
                initialState (kp "left_shoulder" 100 150)
                (kp "right_shoulder" 40 150) (kp "left_ear" 188 50)
                (kp "right_ear" 40 50) (kp "left_hip" 84 250)
                (kp "right_hip" 40 250)
                eq_refl eq_refl eq_refl eq_refl eq_refl eq_refl)
    as (_ & _ & H41).
  split; [reflexivity|]. split; [reflexivity|]. split; [reflexivity|].
  split; [exact (H39 eq_refl eq_refl) | exact (H41 eq_refl)].
Defined.

(** ** Scores *)

Lemma find_named_with_score (f : Keypoint -> option float) (s : string)
    (kps : list Keypoint) :
  find_named s (map (with_score f) kps) =
  option_map (with_score f) (find_named s kps).
Proof.
  unfold find_named.
  induction kps as [|k kps IH]; [reflexivity|].
  cbn [map find]. change (name_is s (with_score f k)) with (name_is s k).
  destruct (name_is s k); [reflexivity | exact IH].
Qed.

Ltac case_keypoints :=
  repeat match goal with
         | |- context [find_named ?s ?kps] => destruct (find_named s kps)
         end.

Lemma detectPosture_rescore (acos : float -> float) (cam : CameraType)
    (f : Keypoint -> option float) (ps : list Pose) (st : AppState) :
  detectPosture acos cam (map (rescore f) ps) st = detectPosture acos cam ps st.
Proof.
  destruct ps as [|p rest]; [reflexivity|].
  cbn [map]. unfold detectPosture. cbn [rescore keypoints].
  rewrite !find_named_with_score.
  case_keypoints; reflexivity.
Qed.

(** C3, as the specification words it, fails.  After a frame that left the
    state not aligned and red, a front-camera frame whose three key points
    all have score 0.1, below the threshold 0.3, changes the state to
    aligned and green. *)
Lemma confidence_gating_counterexample :
  let st := run Fdlibm.acos [Frame front (Some [pose_nose_far])] in
  let st' := loop Fdlibm.acos front (Some [pose_low_scores]) st in
  forallb low_score (keypoints pose_low_scores) = true /\
  (aligned st = false /\ color st = "red"%string) /\
  (aligned st' = true /\ color st' = "green"%string).
Proof. vm_compute. repeat split. Qed.

(** C3, amended.  The classifier does not read the scores: replacing the
    scores of all key points of all poses in any way leaves the outcome of
    the frame the same.  The threshold 0.3 is used by [renderPose] alone:
    every key point it draws has a score above it. *)
Theorem classifier_ignores_scores :
  (forall (acos : float -> float) (cam : CameraType)
          (f : Keypoint -> option float) (ps : list Pose) (st : AppState),
      detectPosture acos cam (map (rescore f) ps) st =
      detectPosture acos cam ps st)
  /\
  (forall (st : AppState) (k : Keypoint),
      In k (drawnKeypoints st) ->
      (MIN_KEYPOINT_SCORE <? match score k with Some s => s | None => 0 end)
      = true).
Proof.
  split.
  - intros. apply detectPosture_rescore.
  - intros st k. unfold drawnKeypoints.
    destruct (poses st) as [[|p rest]|]; cbn [In]; try contradiction.
    intros Hin. apply filter_In in Hin. exact (proj2 Hin).
Qed.

Lemma classifier_ignores_scores_witness :
  let st := loop Fdlibm.acos front (Some [pose_nose_near]) initialState in
  In (kp "nose" 5 3) (drawnKeypoints st) /\
  (MIN_KEYPOINT_SCORE <?
     match score (kp "nose" 5 3) with Some s => s | None => 0 end) = true.
Proof.
  assert (Hin : In (kp "nose" 5 3)
                  (drawnKeypoints
                     (loop Fdlibm.acos front (Some [pose_nose_near])
                        initialState))).
  { right. right. left. reflexivity. }
  split; [exact Hin|].
  exact (proj2 classifier_ignores_scores _ _ Hin).
Defined.

(** Key points below the threshold are not drawn, although they were
    classified. *)
Example low_scores_not_drawn :
  drawnKeypoints
    (loop Fdlibm.acos front (Some [pose_low_scores]) initialState) = [].
Proof. reflexivity. Qed.

(** ** The single [aligned] cell *)

Lemma shoulderCheck_cases (a b : option Keypoint) (st : AppState) :
  shoulderCheck a b st = st \/
  exists v : bool, shoulderCheck a b st = setAligned v st.
Proof.
  unfold shoulderCheck. destruct a as [ls|]; [|left; reflexivity].
  destruct b as [rs|]; [|left; reflexivity].
  right. destruct (findDistance _ _ _ _ <? 100); eexists; reflexivity.
Qed.

Lemma cameraBranches_color_setAligned (acos : float -> float)
    (cam : CameraType) (kps : list Keypoint) (v : bool) (st : AppState) :
  color (cameraBranches acos cam kps (setAligned v st)) =
  color (cameraBranches acos cam kps st).
Proof.
  unfold cameraBranches, backBranch, frontBranch.
  destruct cam; cbn [CameraType_eqb]; case_keypoints; reflexivity.
Qed.

Lemma cameraBranches_aligned_setAligned (acos : float -> float)
    (cam : CameraType) (kps : list Keypoint) (v : bool) (st : AppState) :
  frontGuard cam kps || backGuard cam kps = true ->
  aligned (cameraBranches acos cam kps (setAligned v st)) =
  aligned (cameraBranches acos cam kps st).
Proof.
  unfold cameraBranches, backBranch, frontBranch, frontGuard, backGuard.
  destruct cam; cbn [CameraType_eqb]; case_keypoints;
    cbn [present andb orb]; intros Hg; try discriminate Hg; reflexivity.
Qed.

(** C4, as the specification words it, fails.  After a frame that left the
    verdict not aligned and red, a frame holding two shoulders 50 apart and
    nothing else runs no camera branch, yet the boolean the camera branches
    write is now true while the colour is still red. *)
Lemma one_aligned_cell_counterexample :
  let kps := keypoints (pose_shoulders 50) in
  let st := run Fdlibm.acos [Frame front (Some [pose_nose_far])] in
  let st' := loop Fdlibm.acos front (Some [pose_shoulders 50]) st in
  frontGuard front kps = false /\ backGuard front kps = false /\
  (aligned st = false /\ color st = "red"%string) /\
  (aligned st' = true /\ color st' = "red"%string).
Proof. vm_compute. repeat split. Qed.

(** C4, amended.  There is one [aligned] cell, written first by the
    shoulder check and then by the camera branch that runs.  The colour
    after a frame is the colour the camera branches alone would have
    produced, so the shoulder distance never affects it; when a camera
    branch runs, [aligned] after the frame is that branch's verdict and the
    shoulder result is overwritten; when none runs, the frame is the
    shoulder check alone. *)
Theorem aligned_is_one_cell :
  forall (acos : float -> float) (cam : CameraType) (pose : Pose)
         (rest : list Pose) (st : AppState),
    let kps := keypoints pose in
    let st' := detectPosture acos cam (pose :: rest) st in
    color st' = color (cameraBranches acos cam kps st) /\
    (frontGuard cam kps || backGuard cam kps = true ->
     aligned st' = aligned (cameraBranches acos cam kps st)) /\
    (frontGuard cam kps || backGuard cam kps = false ->
     st' = shoulderCheck (find_named "left_shoulder" kps)
             (find_named "right_shoulder" kps) st).
Proof.
  intros acos cam pose rest st kps st'. subst st'.
  rewrite detectPosture_steps. fold kps.
  destruct (shoulderCheck_cases (find_named "left_shoulder" kps)
              (find_named "right_shoulder" kps) st) as [Hs | [v Hs]].
  - rewrite Hs. split; [reflexivity|]. split; [reflexivity|].
    intros Hg. apply orb_false_elim in Hg. destruct Hg as [Hf Hb].
    apply cameraBranches_skipped; assumption.
  - split; [|split].
    + rewrite Hs. apply cameraBranches_color_setAligned.
    + intros Hg. rewrite Hs. apply cameraBranches_aligned_setAligned, Hg.
    + intros Hg. apply orb_false_elim in Hg. destruct Hg as [Hf Hb].
      apply cameraBranches_skipped; assumption.
Qed.

Lemma aligned_is_one_cell_witness :
  let kps := keypoints pose_nose_far in
  let st' := detectPosture Fdlibm.acos front [pose_nose_far] initialState in
  color st' = color (cameraBranches Fdlibm.acos front kps initialState) /\
  aligned st' = aligned (cameraBranches Fdlibm.acos front kps initialState).
Proof.
  destruct (aligned_is_one_cell Fdlibm.acos front pose_nose_far []
              initialState) as (Hc & Ha & _).
  split; [exact Hc | exact (Ha eq_refl)].
Defined.

(** ** Shoulder distance *)

(** C6, as the specification words it, fails.  In a front-camera frame
    with the shoulders at (0,0) and (50,0), 50 apart, and the nose 20 away
    from the midpoint of the ears, the only [aligned] cell there is ends
    false: the front branch runs after the shoulder check and overwrites
    its result. *)
Lemma shoulder_result_overwritten_counterexample :
  let kps := keypoints pose_shoulders_near_nose_far in
  let st' :=
    detectPosture Fdlibm.acos front [pose_shoulders_near_nose_far]
      initialState in
  find_named "left_shoulder" kps = Some (kp "left_shoulder" 0 0) /\
  find_named "right_shoulder" kps = Some (kp "right_shoulder" 50 0) /\
  findDistance 0 0 50 0 = 50 /\ (findDistance 0 0 50 0 <? 100) = true /\
  aligned st' = false.
Proof. vm_compute. repeat split. Qed.

(** C6, amended.  When the first pose has both shoulders, whatever the
    camera, the shoulder check sets [aligned] to the truth value of "the
    floored Euclidean distance between the shoulders is below 100" before
    the camera branches run; that is the value of [aligned] after the frame
    when no camera branch runs, and when one runs [aligned] is that branch's
    verdict instead.  [findDistance] is the floor of the rounded square root
    of the sum of the squared differences, and between points of the pixel
    grid the integer square root of [dx^2 + dy^2].  Shoulders at (0,0) and
    (50,0) are 50 apart and give true, at (0,0) and (150,0) 150 apart and
    give false, on either camera; from (10,20), the shoulder at (70,99) is
    99 away ([sqrt 9841] floored) and gives true, at (70,100) it is 100 away
    and gives false. *)
Theorem shoulder_distance_check :
  (forall (acos : float -> float) (cam : CameraType) (pose : Pose)
          (rest : list Pose) (st : AppState) (ls rs : Keypoint),
      let kps := keypoints pose in
      find_named "left_shoulder" kps = Some ls ->
      find_named "right_shoulder" kps = Some rs ->
      let root :=
        sqrt ((x rs - x ls) * (x rs - x ls) + (y rs - y ls) * (y rs - y ls)) in
      let dist := findDistance (x ls) (y ls) (x rs) (y rs) in
      let near := dist <? 100 in
      let st' := detectPosture acos cam (pose :: rest) st in
      match floor_of_value root with
      | Some k => float_to_Z dist = Some k
      | None => dist = root
      end /\
      shoulderCheck (Some ls) (Some rs) st = setAligned near st /\
      st' = cameraBranches acos cam kps (setAligned near st) /\
      (frontGuard cam kps || backGuard cam kps = false ->
       aligned st' = near) /\
      (frontGuard cam kps || backGuard cam kps = true ->
       aligned st' = aligned (cameraBranches acos cam kps st)))
  /\
  (forall px py qx qy : Z,
      (0 <= px <= Z.of_nat TENSOR_MAX)%Z ->
      (0 <= py <= Z.of_nat TENSOR_MAX)%Z ->
      (0 <= qx <= Z.of_nat TENSOR_MAX)%Z ->
      (0 <= qy <= Z.of_nat TENSOR_MAX)%Z ->
      findDistance (Z2F px) (Z2F py) (Z2F qx) (Z2F qy) =
      Z2F (Z.sqrt ((qx - px) * (qx - px) + (qy - py) * (qy - py))))
  /\
  (forall (acos : float -> float) (cam : CameraType) (st : AppState),
      let after (p : Pose) := detectPosture acos cam [p] st in
      (findDistance 0 0 50 0 = 50 /\
       aligned (after (pose_shoulders 50)) = true) /\
      (findDistance 0 0 150 0 = 150 /\
       aligned (after (pose_shoulders 150)) = false) /\
      (findDistance 10 20 70 99 = 99 /\
       aligned (after (pose_shoulders_diagonal 99)) = true) /\
      (findDistance 10 20 70 100 = 100 /\
       aligned (after (pose_shoulders_diagonal 100)) = false)).
Proof.
  split; [|split].
  - intros acos cam pose rest st ls rs kps Hls Hrs root dist near st'.
    assert (Hs : shoulderCheck (Some ls) (Some rs) st = setAligned near st).
    { unfold shoulderCheck. fold dist near. destruct near; reflexivity. }
    assert (Hst : st' = cameraBranches acos cam kps (setAligned near st)).
    { subst st'. rewrite detectPosture_steps. fold kps.
      rewrite Hls, Hrs, Hs. reflexivity. }
    split.
    { change dist with (JS.Math_floor root). apply Math_floor_is_floor. }
    split; [exact Hs|]. split; [exact Hst|]. split.
    + intros Hg. apply orb_false_elim in Hg. destruct Hg as [Hf Hb].
      rewrite Hst, cameraBranches_skipped by assumption. reflexivity.
    + intros Hg. rewrite Hst.
      apply cameraBranches_aligned_setAligned, Hg.
  - apply findDistance_on_grid.
  - intros acos cam st after. subst after.
    repeat split; destruct cam; reflexivity.
Qed.

Lemma shoulder_distance_check_witness :
  let near := findDistance 10 20 70 99 <? 100 in
  float_to_Z (findDistance 10 20 70 99) = Some 99%Z /\
  shoulderCheck (Some (kp "left_shoulder" 10 20))
    (Some (kp "right_shoulder" 70 99)) initialState
    = setAligned near initialState /\
  aligned (detectPosture Fdlibm.acos back [pose_shoulders_diagonal 99]
             initialState) = near.
Proof.
  destruct (proj1 shoulder_distance_check Fdlibm.acos back
              (pose_shoulders_diagonal 99) [] initialState
              (kp "left_shoulder" 10 20) (kp "right_shoulder" 70 99)
              eq_refl eq_refl) as (Hf & Hs & _ & Ha & _).
  split; [exact Hf|]. split; [exact Hs|]. exact (Ha eq_refl).
Defined.

(** ** The angle formula *)

(** C5.  For every input with [y1] different from zero, [findAngle] is the
    specification's formula: the arc cosine of
    [(y2-y1)*(-y1) / (sqrt((x2-x1)^2+(y2-y1)^2) * y1)], converted to degrees
    and floored to an integer.  Floored: when the angle in degrees is a
    finite double, the result is the integer that is the floor of its
    value.  Converted to degrees: pi gives 180 and half of pi gives 90.
    With fdlibm's arc cosine, the pair (100,200), (130,120) makes 20
    (20.556 degrees floored), (100,150), (182,50) makes 39 (39.35),
    (100,150), (130,98) makes 29 (29.98), and a second point straight
    above, beside and below the first makes 0, 90 and 180. *)
Theorem findAngle_is_spec_formula :
  (forall (acos : float -> float) (x1 y1 x2 y2 : float),
      is_zero_float y1 = false ->
      let quotient :=
        (y2 - y1) * (- y1)
        / (sqrt ((x2 - x1) * (x2 - x1) + (y2 - y1) * (y2 - y1)) * y1) in
      let deg := degrees (acos quotient) in
      match floor_of_value deg with
      | Some n => float_to_Z (findAngle acos x1 y1 x2 y2) = Some n
      | None => findAngle acos x1 y1 x2 y2 = deg
      end)
  /\
  (degrees 0x1.921fb54442d18p+1 = 180 /\
   degrees 0x1.921fb54442d18p+0 = 90 /\
   degrees 1 = 0x1.ca5dc1a63c1f8p+5)
  /\
  (findAngle Fdlibm.acos 100 200 130 120 = 20 /\
   findAngle Fdlibm.acos 100 150 182 50 = 39 /\
   findAngle Fdlibm.acos 100 150 130 98 = 29 /\
   findAngle Fdlibm.acos 100 150 100 50 = 0 /\
   findAngle Fdlibm.acos 100 150 160 150 = 90 /\
   findAngle Fdlibm.acos 100 150 100 250 = 180).
Proof.
  split; [|split].
  - intros acos x1 y1 x2 y2 _ quotient deg.
    change (findAngle acos x1 y1 x2 y2) with (JS.Math_floor deg).
    apply Math_floor_is_floor.
  - repeat split.
  - repeat split.
Qed.

Lemma findAngle_is_spec_formula_witness :
  float_to_Z (findAngle Fdlibm.acos 100 200 130 120) = Some 20%Z /\
  float_to_Z (findAngle Fdlibm.acos 100 150 130 98) = Some 29%Z.
Proof.
  split.
  - exact (proj1 findAngle_is_spec_formula Fdlibm.acos 100 200 130 120
             eq_refl).
  - exact (proj1 findAngle_is_spec_formula Fdlibm.acos 100 150 130 98
             eq_refl).
Defined.

(** ** Purity of [findAngle] *)

Lemma eval_ignores_outside (acos : float -> float)
    (args : Syntax.Param -> float) (o1 o2 : Syntax.Outside)
    (locals : list (string * float)) (e : Syntax.Expr) :
  Syntax.reads_outside e = false ->
  Syntax.eval acos args o1 locals e = Syntax.eval acos args o2 locals e.
Proof.
  induction e; cbn [Syntax.reads_outside Syntax.eval]; intros H;
    try discriminate H; try reflexivity;
    try (rewrite IHe by exact H; reflexivity);
    apply orb_false_elim in H; destruct H as [Ha Hb];
    rewrite IHe1, IHe2 by assumption; reflexivity.
Qed.

(** A body that names nothing outside the call has the same result in every
    surrounding state and at every time. *)
Lemma exec_ignores_outside (acos : float -> float)
    (args : Syntax.Param -> float) (o1 o2 : Syntax.Outside)
    (b : Syntax.Body) :
  Syntax.body_reads_outside b = false ->
  forall locals : list (string * float),
    Syntax.exec acos args o1 locals b = Syntax.exec acos args o2 locals b.
Proof.
  induction b as [id e rest IH | e]; cbn [Syntax.body_reads_outside];
    intros H locals; cbn [Syntax.exec].
  - apply orb_false_elim in H. destruct H as [He Hr].
    rewrite (eval_ignores_outside acos args o1 o2 locals e He).
    destruct (Syntax.eval acos args o2 locals e); [apply IH, Hr|reflexivity].
  - apply eval_ignores_outside, H.
Qed.

(** C9.  [findAngle] is a pure, deterministic function of its four
    arguments: its text names nothing outside the call, so running it in
    any two surrounding states, at any two times, on equal arguments gives
    the same result, which is the value of [findAngle]. *)
Theorem findAngle_deterministic :
  Syntax.body_reads_outside Syntax.findAngle_body = false /\
  (forall (acos : float -> float) (o1 o2 : Syntax.Outside)
          (x1 y1 x2 y2 x1' y1' x2' y2' : float),
      x1 = x1' -> y1 = y1' -> x2 = x2' -> y2 = y2' ->
      Syntax.exec acos (Syntax.call x1 y1 x2 y2) o1 []
        Syntax.findAngle_body = Some (findAngle acos x1 y1 x2 y2) /\
      Syntax.exec acos (Syntax.call x1' y1' x2' y2') o2 []
        Syntax.findAngle_body =
      Syntax.exec acos (Syntax.call x1 y1 x2 y2) o1 []
        Syntax.findAngle_body).
Proof.
  split; [reflexivity|].
  intros acos o1 o2 x1 y1 x2 y2 x1' y1' x2' y2' Hx1 Hy1 Hx2 Hy2.
  subst x1' y1' x2' y2'. split; [reflexivity|].
  apply exec_ignores_outside. reflexivity.
Qed.

Lemma findAngle_deterministic_witness :
  let noon := {| Syntax.variables := fun _ => Some 1;
                 Syntax.Date_now_value := 1700000000000;
                 Syntax.performance_now_value := 5 |} in
  let later := {| Syntax.variables := fun _ => None;
                  Syntax.Date_now_value := 1700000000999;
                  Syntax.performance_now_value := 77 |} in
  Syntax.exec Fdlibm.acos (Syntax.call 100 200 130 120) noon []
    Syntax.findAngle_body = Some 20 /\
  Syntax.exec Fdlibm.acos (Syntax.call (50 + 50) (2 * 100) (260 / 2) (150 - 30))
    later [] Syntax.findAngle_body =
  Syntax.exec Fdlibm.acos (Syntax.call 100 200 130 120) noon []
    Syntax.findAngle_body.
Proof.
  intros noon later.
  exact (proj2 findAngle_deterministic Fdlibm.acos noon later
           100 200 130 120 (50 + 50) (2 * 100) (260 / 2) (150 - 30)
           eq_refl eq_refl eq_refl eq_refl).
Defined.

(** The frame rate of the same file is not such a function: its text reads
    the clocks, and its value changes with them. *)
Example fps_reads_the_clocks :
  Syntax.body_reads_outside Syntax.fps_body = true /\
  Syntax.exec Fdlibm.acos (Syntax.call 0 0 0 0)
    {| Syntax.variables := fun _ => None;
       Syntax.Date_now_value := 1050;
       Syntax.performance_now_value := 1000 |} [] Syntax.fps_body
  = Some 20 /\
  Syntax.exec Fdlibm.acos (Syntax.call 0 0 0 0)
    {| Syntax.variables := fun _ => None;
       Syntax.Date_now_value := 1100;
       Syntax.performance_now_value := 1000 |} [] Syntax.fps_body
  = Some 10.
Proof. repeat split. Qed.

(** The two results are the same value even when that value is NaN, which
    JavaScript's [===] does not equate with itself. *)
Example findAngle_nan_same_value :
  findAngle Fdlibm.acos 130 0 130 90 = findAngle Fdlibm.acos 130 0 130 90 /\
  (findAngle Fdlibm.acos 130 0 130 90 =? findAngle Fdlibm.acos 130 0 130 90)
  = false.
Proof. split; reflexivity. Qed.

(** The verdict of the back-camera branch does not depend on the state the
    frame starts from: the angles are read from the key points alone. *)
Lemma backBranch_verdict_state_independent (acos : float -> float)
    (ls rs le re lh rh : Keypoint) (st1 st2 : AppState) :
  let b1 := backBranch acos back (Some ls) (Some rs) (Some le) (Some re)
              (Some lh) (Some rh) st1 in
  let b2 := backBranch acos back (Some ls) (Some rs) (Some le) (Some re)
              (Some lh) (Some rh) st2 in
  aligned b1 = aligned b2 /\ color b1 = color b2.
Proof.
  cbn zeta. rewrite !backBranch_fires.
  destruct ((findAngle _ _ _ _ _ <? 40) && (findAngle _ _ _ _ _ <? 10));
    split; reflexivity.
Qed.

(** ** The degenerate input [y1 = 0] *)

Lemma nan_of_spec (v : float) : Prim2SF v = S754_nan -> v = nan.
Proof. intros H. apply Prim2SF_inj. rewrite H. reflexivity. Qed.

(** A float equal to zero is one of the two zeros. *)
Lemma is_zero_float_inv (v : float) :
  is_zero_float v = true -> exists s : bool, Prim2SF v = S754_zero s.
Proof.
  unfold is_zero_float. rewrite FloatAxioms.eqb_spec.
  change (Prim2SF 0) with (S754_zero false).
  destruct (Prim2SF v) as [s | s | | s m e]; cbn.
  - intros _. exists s. reflexivity.
  - destruct s; discriminate.
  - discriminate.
  - destruct s; discriminate.
Qed.

Lemma mul_zero_r (a z : float) (s : bool) :
  Prim2SF z = S754_zero s -> zero_or_nan (a * z).
Proof.
  intros Hz. unfold zero_or_nan.
  pose proof (FloatAxioms.mul_spec a z) as Hm. rewrite Hz in Hm.
  destruct (Prim2SF a) as [sa | sa | | sa m e]; cbn in Hm.
  - left. eexists. exact Hm.
  - right. apply nan_of_spec, Hm.
  - right. apply nan_of_spec, Hm.
  - left. eexists. exact Hm.
Qed.

Lemma div_zero_or_nan (n d : float) :
  zero_or_nan n -> zero_or_nan d -> n / d = nan.
Proof.
  intros Hn Hd. apply nan_of_spec. rewrite FloatAxioms.div_spec.
  destruct Hn as [[sn Hn] | Hn], Hd as [[sd Hd] | Hd];
    rewrite ?Hn, ?Hd; reflexivity.
Qed.

Section DegenerateAngle.

Variable Math_acos : float -> float.

(** ECMAScript: [Math.acos(NaN)] is NaN. *)
Hypothesis Math_acos_nan : Math_acos nan = nan.

(** With [y1] a zero, numerator and divisor are zeros (or NaN when a
    coordinate is not finite), so the quotient is NaN. *)
Lemma findAngle_quotient_nan (x1 y1 x2 y2 : float) :
  is_zero_float y1 = true ->
  zero_or_nan (JS.Math_sqrt (JS.sq (x2 - x1) + JS.sq (y2 - y1)) * y1) /\
  (y2 - y1) * (- y1)
    / (JS.Math_sqrt (JS.sq (x2 - x1) + JS.sq (y2 - y1)) * y1) = nan.
Proof.
  intros Hz. destruct (is_zero_float_inv _ Hz) as [s Hs].
  assert (Hd : zero_or_nan
                 (JS.Math_sqrt (JS.sq (x2 - x1) + JS.sq (y2 - y1)) * y1)).
  { apply (mul_zero_r _ _ s), Hs. }
  split; [exact Hd|].
  apply div_zero_or_nan; [|exact Hd].
  apply (mul_zero_r _ _ (negb s)).
  rewrite FloatAxioms.opp_spec, Hs. reflexivity.
Qed.

Lemma findAngle_zero_y1 (x1 y1 x2 y2 : float) :
  is_zero_float y1 = true -> findAngle Math_acos x1 y1 x2 y2 = nan.
Proof.
  intros Hz. unfold findAngle.
  rewrite (proj2 (findAngle_quotient_nan x1 y1 x2 y2 Hz)), Math_acos_nan.
  reflexivity.
Qed.

End DegenerateAngle.

(** C8.  For every input whose [y1] is zero, the divisor
    [sqrt(...) * y1] of [findAngle] is a zero (NaN when the length
    overflows), nothing guards the division, and the result is NaN.  The
    caller does not guard either: on the back camera, with all six key
    points present and the left shoulder or the left hip at height zero,
    the NaN angle fails its comparison and the frame ends not aligned and
    red. *)
Theorem findAngle_unguarded_zero_y1 :
  forall (acos : float -> float),
    acos nan = nan ->
    (forall x1 y1 x2 y2 : float,
        is_zero_float y1 = true ->
        zero_or_nan (JS.Math_sqrt (JS.sq (x2 - x1) + JS.sq (y2 - y1)) * y1) /\
        findAngle acos x1 y1 x2 y2 = nan)
    /\
    (forall (ls rs le re lh rh : Keypoint) (st : AppState),
        is_zero_float (y ls) = true \/ is_zero_float (y lh) = true ->
        let st' := backBranch acos back (Some ls) (Some rs) (Some le)
                     (Some re) (Some lh) (Some rh) st in
        aligned st' = false /\ color st' = "red"%string).
Proof.
  intros acos Hnan. split.
  - intros x1 y1 x2 y2 Hz. split.
    + exact (proj1 (findAngle_quotient_nan x1 y1 x2 y2 Hz)).
    + apply findAngle_zero_y1; assumption.
  - intros ls rs le re lh rh st Hz st'. subst st'.
    rewrite backBranch_fires.
    destruct Hz as [Hz | Hz];
      rewrite (findAngle_zero_y1 acos Hnan _ _ _ _ Hz).
    + split; reflexivity.
    + rewrite andb_comm. split; reflexivity.
Qed.

Lemma findAngle_unguarded_zero_y1_witness :
  findAngle Fdlibm.acos 130 0 130 90 = nan /\
  findAngle Fdlibm.acos 130 (-0) 100 90 = nan.
Proof.
  pose proof (findAngle_unguarded_zero_y1 Fdlibm.acos eq_refl) as [H _].
  split.
  - exact (proj2 (H 130 0 130 90 eq_refl)).
  - exact (proj2 (H 130 (-0) 100 90 eq_refl)).
Defined.

(** ** The colour invariant *)

Lemma frontBranch_color_ok (cam : CameraType) (le re n : option Keypoint)
    (st : AppState) :
  color_ok st -> color_ok (frontBranch cam le re n st).
Proof.
  intros Hok. unfold frontBranch.
  destruct (CameraType_eqb cam front), le, re, n; try exact Hok.
  destruct (findDistance _ _ _ _ <? 10); [left | right]; reflexivity.
Qed.

Lemma backBranch_color_ok (acos : float -> float) (cam : CameraType)
    (ls rs le re lh rh : option Keypoint) (st : AppState) :
  color_ok st -> color_ok (backBranch acos cam ls rs le re lh rh st).
Proof.
  intros Hok. unfold backBranch.
  destruct (CameraType_eqb cam back), ls, rs, le, re, lh, rh; try exact Hok.
  destruct ((findAngle _ _ _ _ _ <? 40) && (findAngle _ _ _ _ _ <? 10));
    [left | right]; reflexivity.
Qed.

Lemma detectPosture_color_ok (acos : float -> float) (cam : CameraType)
    (ps : list Pose) (st : AppState) :
  color_ok st -> color_ok (detectPosture acos cam ps st).
Proof.
  intros Hok. destruct ps as [|pose rest]; [exact Hok|].
  unfold detectPosture.
  apply backBranch_color_ok, frontBranch_color_ok.
  unfold color_ok. rewrite shoulderCheck_color. exact Hok.
Qed.

Lemma handle_color_ok (acos : float -> float) (st : AppState) (ev : Event) :
  color_ok st -> color_ok (handle acos st ev).
Proof.
  intros Hok. destruct ev as [cam [ps|] | cam]; cbn [handle loop].
  - apply detectPosture_color_ok. exact Hok.
  - exact Hok.
  - unfold handleSwitchCameraType. destruct (CameraType_eqb _ _); exact Hok.
Qed.

Lemma fold_handle_color_ok (acos : float -> float) (evs : list Event) :
  forall st : AppState,
    color_ok st -> color_ok (fold_left (handle acos) evs st).
Proof.
  induction evs as [|ev evs IH]; intros st Hok; cbn [fold_left].
  - exact Hok.
  - apply IH, handle_color_ok, Hok.
Qed.

(** C10.  The colour is "green" in the initial state, every step of the
    component keeps it "green" or "red", and so it is one of the two after
    every sequence of frames and camera switches. *)
Theorem color_is_green_or_red :
  color initialState = "green"%string /\
  (forall (acos : float -> float) (st : AppState) (ev : Event),
      color (handle acos st ev) = color st \/
      color (handle acos st ev) = "green"%string \/
      color (handle acos st ev) = "red"%string) /\
  (forall (acos : float -> float) (evs : list Event),
      color_ok (run acos evs)).
Proof.
  split; [reflexivity|]. split.
  - intros acos st ev.
    destruct ev as [cam [[|pose rest]|] | cam]; cbn [handle loop];
      try (left; reflexivity).
    + unfold detectPosture, backBranch, frontBranch.
      destruct cam; cbn [CameraType_eqb]; case_keypoints;
        try (left; rewrite shoulderCheck_color; reflexivity);
        match goal with
        | |- context [if ?c then _ else _] =>
            destruct c; [right; left | right; right]; reflexivity
        end.
    + unfold handleSwitchCameraType.
      destruct (CameraType_eqb _ _); left; reflexivity.
  - intros acos evs. apply fold_handle_color_ok. left. reflexivity.
Qed.

(** * Further properties of [App.tsx] *)

(** ** [findDistance] as a distance *)

(** X1.  [findDistance] is symmetric: exchanging the two points gives the
    same double, for all inputs, NaN and the infinities included; hence the
    shoulder check gives the same verdict when the two shoulders are
    exchanged. *)
Theorem findDistance_symmetric :
  (forall x1 y1 x2 y2 : float,
      findDistance x1 y1 x2 y2 = findDistance x2 y2 x1 y1) /\
  (forall (a b : Keypoint) (st : AppState),
      shoulderCheck (Some a) (Some b) st = shoulderCheck (Some b) (Some a) st).
Proof.
  assert (Hsym : forall x1 y1 x2 y2 : float,
             findDistance x1 y1 x2 y2 = findDistance x2 y2 x1 y1).
  { intros x1 y1 x2 y2. unfold findDistance.
    rewrite (sq_sub_swap x2 x1), (sq_sub_swap y2 y1). reflexivity. }
  split; [exact Hsym|].
  intros a b st. unfold shoulderCheck.
  rewrite (Hsym (x a) (y a) (x b) (y b)). reflexivity.
Qed.

Lemma SFsqrt_nonneg (f : spec_float) : sf_nonneg (SF64sqrt f).
Proof.
  destruct f as [s | [] | | [] m e]; try exact I; try reflexivity.
  unfold SF64sqrt, SFsqrt.
  destruct (SFsqrt_core_binary prec emax (Zpos m) e) as [[mz ez] lz].
  pose proof (binary_round_aux_sign false mz ez lz) as H.
  destruct (binary_round_aux prec emax false mz ez lz); cbn; auto.
Qed.

Lemma of_uint63_nonneg (n : PrimInt63.int) : sf_nonneg (Prim2SF (of_uint63 n)).
Proof.
  rewrite FloatAxioms.of_uint63_spec.
  pose proof (Uint63.to_Z_bounded n) as Hb.
  destruct (Uint63.to_Z n) as [|p|p] eqn:E; cbn [binary_normalize].
  - exact I.
  - unfold binary_round. destruct (shl_align p 0 _) as [mz ez].
    pose proof (binary_round_aux_sign false (Zpos mz) ez loc_Exact) as H.
    destruct (binary_round_aux prec emax false (Zpos mz) ez loc_Exact);
      cbn; auto.
  - exfalso. destruct Hb as [Hb _]. apply Hb. reflexivity.
Qed.

Lemma Math_floor_nonneg (v : float) :
  sf_nonneg (Prim2SF v) -> sf_nonneg (Prim2SF (JS.Math_floor v)).
Proof.
  intros Hv. unfold JS.Math_floor.
  destruct (Prim2SF v) as [s | s | | s m e] eqn:E; try (rewrite E; exact Hv).
  destruct (0 <=? e)%Z; [rewrite E; exact Hv|].
  destruct (Z.shiftl _ _ =? Zpos m)%Z; [rewrite E; exact Hv|].
  cbn in Hv. subst s. apply of_uint63_nonneg.
Qed.

Lemma findDistance_nonneg_spec (x1 y1 x2 y2 : float) :
  sf_nonneg (Prim2SF (findDistance x1 y1 x2 y2)).
Proof.
  unfold findDistance. apply Math_floor_nonneg.
  unfold JS.Math_sqrt. rewrite FloatAxioms.sqrt_spec. apply SFsqrt_nonneg.
Qed.

(** X2.  [findDistance] never returns a negative number: for all inputs
    the result is NaN or at least zero, and the comparison "result < 0" is
    false. *)
Theorem findDistance_not_negative :
  forall x1 y1 x2 y2 : float,
    (findDistance x1 y1 x2 y2 <? 0) = false /\
    (findDistance x1 y1 x2 y2 = nan \/
     (0 <=? findDistance x1 y1 x2 y2) = true).
Proof.
  intros x1 y1 x2 y2.
  pose proof (findDistance_nonneg_spec x1 y1 x2 y2) as H.
  rewrite FloatAxioms.ltb_spec, FloatAxioms.leb_spec.
  change (Prim2SF 0) with (S754_zero false).
  destruct (Prim2SF (findDistance x1 y1 x2 y2)) as [s | s | | s m e] eqn:E;
    cbn in H; try subst s.
  - split; [reflexivity | right; reflexivity].
  - split; [reflexivity | right; reflexivity].
  - split; [reflexivity | left; apply nan_of_spec, E].
  - split; [reflexivity | right; reflexivity].
Qed.

(** ** NaN and coincident points *)

Lemma sub_nan_l (v : float) : nan - v = nan.
Proof. apply nan_of_spec. rewrite FloatAxioms.sub_spec. reflexivity. Qed.

Lemma sub_nan_r (v : float) : v - nan = nan.
Proof.
  apply nan_of_spec. rewrite FloatAxioms.sub_spec.
  destruct (Prim2SF v); reflexivity.
Qed.

Lemma add_nan_l (v : float) : nan + v = nan.
Proof. apply nan_of_spec. rewrite FloatAxioms.add_spec. reflexivity. Qed.

Lemma add_nan_r (v : float) : v + nan = nan.
Proof.
  apply nan_of_spec. rewrite FloatAxioms.add_spec.
  destruct (Prim2SF v); reflexivity.
Qed.

Lemma mul_nan_l (v : float) : nan * v = nan.
Proof. apply nan_of_spec. rewrite FloatAxioms.mul_spec. reflexivity. Qed.

Lemma mul_nan_r (v : float) : v * nan = nan.
Proof.
  apply nan_of_spec. rewrite FloatAxioms.mul_spec.
  destruct (Prim2SF v); reflexivity.
Qed.

Lemma div_nan_l (v : float) : nan / v = nan.
Proof. apply nan_of_spec. rewrite FloatAxioms.div_spec. reflexivity. Qed.

Lemma div_nan_r (v : float) : v / nan = nan.
Proof.
  apply nan_of_spec. rewrite FloatAxioms.div_spec.
  destruct (Prim2SF v); reflexivity.
Qed.

Lemma is_nan_inv (v : float) : is_nan v = true -> v = nan.
Proof.
  unfold is_nan. rewrite FloatAxioms.eqb_spec. intros H.
  apply nan_of_spec.
  destruct (Prim2SF v) as [s | s | | s m e]; try reflexivity; exfalso.
  - discriminate H.
  - destruct s; discriminate H.
  - unfold SFeqb, SFcompare in H.
    rewrite Z.compare_refl, Pos.compare_cont_refl in H.
    destruct s; discriminate H.
Qed.

Create Rewrite HintDb nan_prop.
#[local] Hint Rewrite sub_nan_l sub_nan_r add_nan_l add_nan_r mul_nan_l mul_nan_r
  div_nan_l div_nan_r : nan_prop.

(** A NaN among the four arguments makes the quotient inside [findAngle]
    and the sum inside [findDistance] NaN. *)
Lemma findDistance_nan_arg (x1 y1 x2 y2 : float) :
  is_nan x1 || is_nan y1 || is_nan x2 || is_nan y2 = true ->
  findDistance x1 y1 x2 y2 = nan.
Proof.
  intros H. unfold findDistance, JS.Math_sqrt, JS.sq.
  repeat (apply orb_true_iff in H; destruct H as [H | H]);
    apply is_nan_inv in H; subst; autorewrite with nan_prop; reflexivity.
Qed.

Lemma findAngle_nan_arg (acos : float -> float) (x1 y1 x2 y2 : float) :
  acos nan = nan ->
  is_nan x1 || is_nan y1 || is_nan x2 || is_nan y2 = true ->
  findAngle acos x1 y1 x2 y2 = nan.
Proof.
  intros Hacos H. unfold findAngle, JS.Math_sqrt, JS.sq.
  repeat (apply orb_true_iff in H; destruct H as [H | H]);
    apply is_nan_inv in H; subst; autorewrite with nan_prop;
    change (- nan) with nan; change (sqrt nan) with nan;
    autorewrite with nan_prop; rewrite Hacos; reflexivity.
Qed.

(** The difference of a finite double with itself is [+0]; of an infinity
    or NaN with itself, NaN. *)
Lemma sub_self (v : float) :
  v - v = if Number_isFinite v then 0 else nan.
Proof.
  apply Prim2SF_inj. rewrite FloatAxioms.sub_spec. unfold Number_isFinite.
  destruct (Prim2SF v) as [[] | [] | | s m e]; try reflexivity.
  unfold SF64sub, SFsub. rewrite Z.sub_diag. reflexivity.
Qed.

Lemma mul_zero_l (z a : float) (s : bool) :
  Prim2SF z = S754_zero s -> zero_or_nan (z * a).
Proof.
  intros Hz. unfold zero_or_nan.
  pose proof (FloatAxioms.mul_spec z a) as Hm. rewrite Hz in Hm.
  destruct (Prim2SF a) as [sa | sa | | sa m e]; cbn in Hm.
  - left. eexists. exact Hm.
  - right. apply nan_of_spec, Hm.
  - right. apply nan_of_spec, Hm.
  - left. eexists. exact Hm.
Qed.

(** X3.  The distance from a point to itself is 0 when its coordinates
    are finite, and NaN otherwise; so two shoulder key points at one finite
    position are aligned. *)
Theorem findDistance_same_point :
  forall px py : float,
    findDistance px py px py =
      (if Number_isFinite px && Number_isFinite py then 0 else nan) /\
    (forall (a b : Keypoint) (st : AppState),
        x a = px -> y a = py -> x b = px -> y b = py ->
        Number_isFinite px = true -> Number_isFinite py = true ->
        shoulderCheck (Some a) (Some b) st = setAligned true st).
Proof.
  intros px py.
  assert (Hd : findDistance px py px py =
               if Number_isFinite px && Number_isFinite py then 0 else nan).
  { unfold findDistance, JS.Math_sqrt, JS.sq. rewrite !sub_self.
    destruct (Number_isFinite px), (Number_isFinite py);
      autorewrite with nan_prop; reflexivity. }
  split; [exact Hd|].
  intros a b st Hxa Hya Hxb Hyb Hfx Hfy. unfold shoulderCheck.
  rewrite Hxa, Hya, Hxb, Hyb, Hd, Hfx, Hfy. reflexivity.
Qed.

Lemma findDistance_same_point_witness :
  shoulderCheck (Some (kp "left_shoulder" 60 80))
    (Some (kp "right_shoulder" 60 80)) initialState
  = setAligned true initialState.
Proof.
  exact (proj2 (findDistance_same_point 60 80)
           (kp "left_shoulder" 60 80) (kp "right_shoulder" 60 80)
           initialState eq_refl eq_refl eq_refl eq_refl eq_refl eq_refl).
Defined.

(** X4.  [findAngle] of a point with itself is NaN, whatever the point:
    the formula divides a zero by a zero.  On the back camera an ear at the
    position of the left shoulder, or a left shoulder at the position of the
    left hip, therefore ends the branch not aligned and red. *)
Theorem findAngle_same_point :
  forall acos : float -> float,
    acos nan = nan ->
    (forall px py : float, findAngle acos px py px py = nan) /\
    (forall (ls rs le re lh rh : Keypoint) (st : AppState),
        (x le = x ls /\ y le = y ls) \/ (x lh = x ls /\ y lh = y ls) ->
        backBranch acos back (Some ls) (Some rs) (Some le) (Some re)
          (Some lh) (Some rh) st
        = setAligned false (setColor "red" st)).
Proof.
  intros acos Hacos.
  assert (Hq : forall px py : float,
             (py - py) * (- py)
             / (JS.Math_sqrt (JS.sq (px - px) + JS.sq (py - py)) * py) = nan).
  { intros px py. unfold JS.Math_sqrt, JS.sq. rewrite !sub_self.
    destruct (Number_isFinite px), (Number_isFinite py);
      autorewrite with nan_prop;
      try change (sqrt nan) with nan; autorewrite with nan_prop;
      try reflexivity.
    change (sqrt (0 * 0 + 0 * 0)) with 0.
    apply div_zero_or_nan; apply (mul_zero_l _ _ false); reflexivity. }
  assert (Hsame : forall px py : float, findAngle acos px py px py = nan).
  { intros px py. unfold findAngle. rewrite Hq, Hacos. reflexivity. }
  split; [exact Hsame|].
  intros ls rs le re lh rh st H. rewrite backBranch_fires.
  destruct H as [[Hx Hy] | [Hx Hy]]; rewrite Hx, Hy, Hsame.
  - reflexivity.
  - rewrite andb_comm. reflexivity.
Qed.

Lemma findAngle_same_point_witness :
  findAngle Fdlibm.acos 100 150 100 150 = nan /\
  findAngle Fdlibm.acos infinity 150 infinity 150 = nan.
Proof.
  pose proof (findAngle_same_point Fdlibm.acos eq_refl) as [H _].
  split; [exact (H 100 150) | exact (H infinity 150)].
Defined.

(** X5.  A NaN coordinate never yields a positive verdict.  In a frame
    whose first pose has a NaN coordinate in a key point the running branch
    reads, the frame ends not aligned, and red when that branch is a camera
    branch: the front branch reads both ears and the nose, the back branch
    the left shoulder, the left ear and the left hip, and the shoulder check
    both shoulders. *)
Theorem nan_coordinate_never_aligned :
  forall (acos : float -> float) (pose : Pose) (rest : list Pose)
         (st : AppState),
    acos nan = nan ->
    let kps := keypoints pose in
    (forall le re n : Keypoint,
        find_named "left_ear" kps = Some le ->
        find_named "right_ear" kps = Some re ->
        find_named "nose" kps = Some n ->
        has_nan le || has_nan re || has_nan n = true ->
        aligned (detectPosture acos front (pose :: rest) st) = false /\
        color (detectPosture acos front (pose :: rest) st) = "red"%string)
    /\
    (forall ls rs le re lh rh : Keypoint,
        find_named "left_shoulder" kps = Some ls ->
        find_named "right_shoulder" kps = Some rs ->
        find_named "left_ear" kps = Some le ->
        find_named "right_ear" kps = Some re ->
        find_named "left_hip" kps = Some lh ->
        find_named "right_hip" kps = Some rh ->
        has_nan ls || has_nan le || has_nan lh = true ->
        aligned (detectPosture acos back (pose :: rest) st) = false /\
        color (detectPosture acos back (pose :: rest) st) = "red"%string)
    /\
    (forall (cam : CameraType) (ls rs : Keypoint),
        find_named "left_shoulder" kps = Some ls ->
        find_named "right_shoulder" kps = Some rs ->
        has_nan ls || has_nan rs = true ->
        frontGuard cam kps = false -> backGuard cam kps = false ->
        aligned (detectPosture acos cam (pose :: rest) st) = false).
Proof.
  intros acos pose rest st Hacos kps. split; [|split].
  - intros le re n Hle Hre Hn Hnan.
    rewrite detectPosture_steps. fold kps. unfold cameraBranches.
    rewrite backBranch_front, Hle, Hre, Hn, frontBranch_fires.
    rewrite findDistance_nan_arg; [split; reflexivity|].
    unfold has_nan in Hnan.
    repeat (apply orb_true_iff in Hnan; destruct Hnan as [Hnan | Hnan]);
      apply is_nan_inv in Hnan; rewrite Hnan;
      autorewrite with nan_prop; cbn [is_nan];
      rewrite ?orb_true_r; reflexivity.
  - intros ls rs le re lh rh Hls Hrs Hle Hre Hlh Hrh Hnan.
    rewrite detectPosture_steps. fold kps. unfold cameraBranches.
    rewrite frontBranch_back, Hls, Hrs, Hle, Hre, Hlh, Hrh, backBranch_fires.
    unfold has_nan in Hnan.
    assert (Hor : findAngle acos (x ls) (y ls) (x le) (y le) = nan \/
                  findAngle acos (x lh) (y lh) (x ls) (y ls) = nan).
    { repeat (apply orb_true_iff in Hnan; destruct Hnan as [Hnan | Hnan]);
        ((left; apply findAngle_nan_arg; [exact Hacos|]; rewrite Hnan;
          rewrite ?orb_true_r; reflexivity)
         || (right; apply findAngle_nan_arg; [exact Hacos|]; rewrite Hnan;
             rewrite ?orb_true_r; reflexivity)). }
    destruct Hor as [H | H]; rewrite H.
    + split; reflexivity.
    + rewrite andb_comm. split; reflexivity.
  - intros cam ls rs Hls Hrs Hnan Hf Hb.
    rewrite detectPosture_steps. fold kps.
    rewrite cameraBranches_skipped by assumption.
    rewrite Hls, Hrs. unfold shoulderCheck.
    rewrite findDistance_nan_arg; [reflexivity|].
    unfold has_nan in Hnan.
    repeat (apply orb_true_iff in Hnan; destruct Hnan as [Hnan | Hnan]);
      rewrite Hnan; rewrite ?orb_true_r; reflexivity.
Qed.

Lemma nan_coordinate_never_aligned_witness :
  aligned (detectPosture Fdlibm.acos front [pose_nan_nose] initialState)
    = false /\
  color (detectPosture Fdlibm.acos front [pose_nan_nose] initialState)
    = "red"%string.
Proof.
  exact (proj1 (nan_coordinate_never_aligned Fdlibm.acos pose_nan_nose []
                  initialState eq_refl)
           (kp "left_ear" 0 0) (kp "right_ear" 10 0) (kp "nose" nan 3)
           eq_refl eq_refl eq_refl eq_refl).
Defined.

(** ** The camera switch *)

Lemma loop_cameraType (acos : float -> float) (cam : CameraType)
    (detected : option (list Pose)) (st : AppState) :
  cameraType (loop acos cam detected st) = cameraType st.
Proof.
  destruct detected as [[|pose rest]|]; try reflexivity.
  unfold loop, detectPosture, backBranch, frontBranch.
  destruct cam; cbn [CameraType_eqb]; case_keypoints;
    repeat match goal with
           | |- context [if ?c then _ else _] => destruct c
           end;
    cbn [cameraType setAligned setColor];
    rewrite ?shoulderCheck_cameraType; reflexivity.
Qed.

Lemma loop_poses (acos : float -> float) (cam : CameraType)
    (ps : list Pose) (st : AppState) :
  poses (loop acos cam (Some ps) st) = Some ps.
Proof.
  destruct ps as [|pose rest]; [reflexivity|].
  unfold loop, detectPosture, backBranch, frontBranch.
  destruct cam; cbn [CameraType_eqb]; case_keypoints;
    repeat match goal with
           | |- context [if ?c then _ else _] => destruct c
           end;
    cbn [poses setAligned setColor];
    rewrite ?shoulderCheck_poses; reflexivity.
Qed.

Lemma handleSwitchCameraType_cameraType (cam : CameraType) (st : AppState) :
  cameraType (handleSwitchCameraType cam st) = other_camera cam.
Proof. destruct cam; reflexivity. Qed.

(** X6.  [handleSwitchCameraType] selects the camera opposite to the one
    its render captured and touches nothing else.  Called again from the
    same render it changes nothing more; pressed from a render of the
    current state it changes the camera, and a second press from the render
    that follows restores the state. *)
Theorem switch_camera_involution :
  forall (cam : CameraType) (st : AppState),
    (cameraType (handleSwitchCameraType cam st) = other_camera cam /\
     aligned (handleSwitchCameraType cam st) = aligned st /\
     color (handleSwitchCameraType cam st) = color st /\
     poses (handleSwitchCameraType cam st) = poses st) /\
    handleSwitchCameraType cam (handleSwitchCameraType cam st) =
      handleSwitchCameraType cam st /\
    (let st1 := handleSwitchCameraType (cameraType st) st in
     cameraType st1 <> cameraType st /\
     handleSwitchCameraType (cameraType st1) st1 = st).
Proof.
  intros cam [p a c col]. split; [|split].
  - destruct cam; repeat split.
  - destruct cam; reflexivity.
  - destruct c; cbn; (split; [discriminate | reflexivity]).
Qed.

Lemma fold_handle_last_switch (acos : float -> float) (evs : list Event) :
  forall st : AppState,
    cameraType (fold_left (handle acos) evs st) =
    match last_switch evs with
    | Some c => other_camera c
    | None => cameraType st
    end.
Proof.
  induction evs as [|ev evs IH]; intros st; [reflexivity|].
  cbn [fold_left last_switch]. rewrite IH.
  destruct ev as [cam detected | cam]; cbn [handle].
  - rewrite loop_cameraType. reflexivity.
  - destruct (last_switch evs); [reflexivity|].
    apply handleSwitchCameraType_cameraType.
Qed.

Lemma fold_handle_fresh_switches (acos : float -> float) (evs : list Event) :
  forall st : AppState,
    switches_fresh (cameraType st) evs = true ->
    cameraType (fold_left (handle acos) evs st) =
    if Nat.even (count_switches evs) then cameraType st
    else other_camera (cameraType st).
Proof.
  induction evs as [|ev evs IH]; intros st Hf; [reflexivity|].
  cbn [fold_left]. destruct ev as [cam detected | cam];
    cbn [handle count_switches switches_fresh] in *.
  - rewrite IH by (rewrite loop_cameraType; exact Hf).
    rewrite loop_cameraType. reflexivity.
  - apply andb_true_iff in Hf. destruct Hf as [Hc Hf].
    assert (Hcam : cam = cameraType st).
    { destruct cam, (cameraType st); try reflexivity; discriminate Hc. }
    subst cam.
    rewrite IH by (rewrite handleSwitchCameraType_cameraType; exact Hf).
    rewrite handleSwitchCameraType_cameraType.
    rewrite Nat.even_succ, <- Nat.negb_even.
    destruct (Nat.even (count_switches evs)), (cameraType st); reflexivity.
Qed.

(** X7.  Only the switch changes the camera: a frame never does.  After
    any sequence of frames and switches the camera is the one opposite to
    the camera captured by the handler of the last switch (the front one
    if there was no switch); and when every switch comes from a render of
    the current camera, the camera is the front one exactly when the number
    of switches is even. *)
Theorem camera_type_counts_switches :
  (forall (acos : float -> float) (cam : CameraType)
          (detected : option (list Pose)) (st : AppState),
      cameraType (loop acos cam detected st) = cameraType st) /\
  (forall (acos : float -> float) (evs : list Event),
      cameraType (run acos evs) =
      match last_switch evs with
      | Some c => other_camera c
      | None => front
      end) /\
  (forall (acos : float -> float) (evs : list Event),
      switches_fresh front evs = true ->
      cameraType (run acos evs) =
      if Nat.even (count_switches evs) then front else back).
Proof.
  split; [apply loop_cameraType|]. split.
  - intros acos evs. unfold run. apply fold_handle_last_switch.
  - intros acos evs Hf. unfold run.
    rewrite fold_handle_fresh_switches by exact Hf.
    destruct (Nat.even (count_switches evs)); reflexivity.
Qed.

Lemma camera_type_counts_switches_witness :
  cameraType (run Fdlibm.acos
                [SwitchCamera front; Frame back (Some [pose_leaning]);
                 SwitchCamera back; SwitchCamera front]) = back.
Proof.
  exact (proj2 (proj2 camera_type_counts_switches) Fdlibm.acos
           [SwitchCamera front; Frame back (Some [pose_leaning]);
            SwitchCamera back; SwitchCamera front] eq_refl).
Defined.

(** Two calls of the handler of one render select the same camera twice:
    the second press does not switch back. *)
Example switch_twice_from_one_render :
  cameraType (run Fdlibm.acos [SwitchCamera front; SwitchCamera front]) = back.
Proof. reflexivity. Qed.

(** X8.  The label of the switcher names the camera the switch selects:
    it reads "Switch to c camera" where [c] is the camera type after the
    [handleSwitchCameraType] of the same render. *)
Theorem switcher_label_names_next_camera :
  forall st : AppState,
    renderCameraTypeSwitcher st =
    ("Switch to "
     ++ camera_name
          (cameraType (handleSwitchCameraType (cameraType st) st))
     ++ " camera")%string.
Proof. intros [p a c col]. destruct c; reflexivity. Qed.

(** X9.  After a frame in which a camera branch ran, the text and the
    colour agree: the label is "Aligned" and the colour green, or the label
    is "Not Aligned" and the colour red. *)
Theorem label_agrees_with_color :
  forall (acos : float -> float) (cam : CameraType) (pose : Pose)
         (rest : list Pose) (st : AppState),
    frontGuard cam (keypoints pose) || backGuard cam (keypoints pose) = true ->
    let st' := loop acos cam (Some (pose :: rest)) st in
    (renderAligned st' = "Aligned"%string /\ color st' = "green"%string) \/
    (renderAligned st' = "Not Aligned"%string /\ color st' = "red"%string).
Proof.
  intros acos cam pose rest st Hg st'. subst st'.
  unfold loop, detectPosture, backBranch, frontBranch.
  unfold frontGuard, backGuard in Hg. revert Hg.
  destruct cam; cbn [CameraType_eqb]; case_keypoints;
    cbn [present andb orb]; intros Hg; try discriminate Hg;
    match goal with
    | |- context [if ?c then _ else _] =>
        destruct c; [left | right]; split; reflexivity
    end.
Qed.

Lemma label_agrees_with_color_witness :
  let st' := loop Fdlibm.acos front (Some [pose_nose_far]) initialState in
  (renderAligned st' = "Aligned"%string /\ color st' = "green"%string) \/
  (renderAligned st' = "Not Aligned"%string /\ color st' = "red"%string).
Proof.
  exact (label_agrees_with_color Fdlibm.acos front pose_nose_far []
           initialState eq_refl).
Defined.

(** ** Display geometry *)

(** X10.  The texture rotation is 0, 90, 180 or 270.  It is 0 on Android
    in every orientation and, elsewhere, in every orientation but portrait
    down and the two landscapes; it depends on the camera in the landscapes
    alone, where the angles of the two cameras add up to a full turn. *)
Theorem texture_rotation_angles :
  forall (d : Display) (cam : CameraType),
    let angle := getTextureRotationAngleInDegrees d in
    In (angle cam) [0; 90; 180; 270] /\
    (IS_ANDROID (os d) = true -> angle cam = 0) /\
    (orientation d <> Some PORTRAIT_DOWN ->
     orientation d <> Some LANDSCAPE_LEFT ->
     orientation d <> Some LANDSCAPE_RIGHT -> angle cam = 0) /\
    (angle front <> angle back ->
     IS_ANDROID (os d) = false /\
     (orientation d = Some LANDSCAPE_LEFT \/
      orientation d = Some LANDSCAPE_RIGHT) /\
     angle front + angle back = 360).
Proof.
  intros [p o w] cam. unfold getTextureRotationAngleInDegrees.
  cbn [os orientation].
  destruct p, o as [[]|], cam; cbn;
    (split; [tauto|]); (split; [try reflexivity; discriminate|]);
    (split; [try reflexivity; intros H1 H2 H3; congruence|]);
    intros H; try (exfalso; apply H; reflexivity);
    (split; [reflexivity|]); (split; [auto|reflexivity]).
Qed.

Lemma texture_rotation_angles_witness :
  getTextureRotationAngleInDegrees iphone_landscape front = 270 /\
  getTextureRotationAngleInDegrees iphone_landscape back = 90 /\
  getTextureRotationAngleInDegrees iphone_landscape front
  + getTextureRotationAngleInDegrees iphone_landscape back = 360.
Proof.
  split; [reflexivity|]. split; [reflexivity|].
  refine (proj2 (proj2 (proj2 (proj2 (proj2
            (texture_rotation_angles iphone_landscape front))) _))).
  cbn. intros H. discriminate (f_equal Prim2SF H).
Defined.

(** X11.  The size of the output tensor is 180 by 240 (180 by 320 on iOS),
    with width and height exchanged exactly when the display is neither in
    portrait nor on Android; so both are among 180, 240 and 320, and the
    divisions of [renderPose] are never by zero or NaN. *)
Theorem output_tensor_size :
  forall d : Display,
    let w := getOutputTensorWidth d in
    let h := getOutputTensorHeight d in
    OUTPUT_TENSOR_HEIGHT (os d) = (if IS_IOS (os d) then 320 else 240) /\
    (isPortrait d || IS_ANDROID (os d) = true ->
     w = 180 /\ h = OUTPUT_TENSOR_HEIGHT (os d)) /\
    (isPortrait d || IS_ANDROID (os d) = false ->
     w = OUTPUT_TENSOR_HEIGHT (os d) /\ h = 180) /\
    In w [180; 240; 320] /\ In h [180; 240; 320].
Proof.
  intros [p o w0]. unfold getOutputTensorWidth, getOutputTensorHeight.
  split; [destruct p; reflexivity|].
  destruct (isPortrait _ || IS_ANDROID _) eqn:E; cbn [os] in *.
  - split; [intros _; split; reflexivity|]. split; [discriminate|].
    destruct p; cbn; tauto.
  - split; [discriminate|]. split; [intros _; split; reflexivity|].
    destruct p; cbn; tauto.
Qed.

Lemma output_tensor_size_witness :
  getOutputTensorWidth iphone_landscape = 320 /\
  getOutputTensorHeight iphone_landscape = 180 /\
  getOutputTensorWidth android_portrait = 180 /\
  getOutputTensorHeight android_portrait = 240.
Proof.
  destruct (output_tensor_size iphone_landscape) as (_ & _ & Hl & _).
  destruct (output_tensor_size android_portrait) as (_ & Hp & _).
  destruct (Hl eq_refl) as [Hw Hh]. destruct (Hp eq_refl) as [Hw' Hh'].
  repeat split; assumption.
Defined.

(** ** The overlay *)

Lemma renderKeypoint_fill (d : Display) (st : AppState) (k : Keypoint) :
  fill (renderKeypoint d st k) = color st.
Proof. reflexivity. Qed.

Lemma renderPose_circles (d : Display) (st : AppState) (c : Circle) :
  In c (overlay_circles (renderPose d st)) ->
  exists (pose : Pose) (rest : list Pose) (k : Keypoint),
    poses st = Some (pose :: rest) /\ In k (keypoints pose) /\
    score_above_min k = true /\ c = renderKeypoint d st k.
Proof.
  unfold renderPose.
  destruct (poses st) as [[|pose rest]|]; cbn [overlay_circles In];
    try contradiction.
  intros Hin. apply in_map_iff in Hin. destruct Hin as (k & Hc & Hk).
  apply filter_In in Hk. destruct Hk as [Hk Hs].
  exists pose, rest, k. auto.
Qed.

(** X12.  [renderPose] draws key points of the first pose only, one circle
    for each key point whose score is present and above the threshold, in
    their order; a key point without score, or with the score NaN, is never
    drawn; and there is no overlay while no pose is detected. *)
Theorem overlay_draws_scored_keypoints :
  forall (d : Display) (st : AppState),
    (forall c : Circle,
        In c (overlay_circles (renderPose d st)) ->
        exists (pose : Pose) (rest : list Pose) (k : Keypoint) (s : float),
          poses st = Some (pose :: rest) /\ In k (keypoints pose) /\
          score k = Some s /\ (MIN_KEYPOINT_SCORE <? s) = true /\
          is_nan s = false /\ c = renderKeypoint d st k) /\
    (forall (pose : Pose) (rest : list Pose),
        poses st = Some (pose :: rest) ->
        map key (overlay_circles (renderPose d st)) =
          map circle_key (filter score_above_min (keypoints pose)) /\
        (List.length (overlay_circles (renderPose d st))
         <= List.length (keypoints pose))%nat) /\
    (poses st = None \/ poses st = Some [] -> renderPose d st = EmptyView).
Proof.
  intros d st. split; [|split].
  - intros c Hin.
    destruct (renderPose_circles d st c Hin) as (pose & rest & k & Hp & Hk & Hs & Hc).
    unfold score_above_min in Hs.
    destruct (score k) as [s|] eqn:Es; [|discriminate Hs].
    exists pose, rest, k, s. repeat split; try assumption.
    destruct (is_nan s) eqn:En; [|reflexivity].
    apply is_nan_inv in En. subst s. discriminate Hs.
  - intros pose rest Hp. unfold renderPose. rewrite Hp.
    cbn [overlay_circles]. split.
    + rewrite map_map. reflexivity.
    + rewrite List.length_map. apply List.filter_length_le.
  - intros [Hp | Hp]; unfold renderPose; rewrite Hp; reflexivity.
Qed.

Lemma overlay_draws_scored_keypoints_witness :
  let st := loop Fdlibm.acos front (Some [pose_nose_near]) initialState in
  map key (overlay_circles (renderPose android_portrait st)) =
  ["skeletonkp_left_ear"; "skeletonkp_right_ear"; "skeletonkp_nose"]%string.
Proof.
  exact (proj1 (proj1 (proj2 (overlay_draws_scored_keypoints
                                android_portrait
                                (loop Fdlibm.acos front
                                   (Some [pose_nose_near]) initialState)))
                  pose_nose_near [] eq_refl)).
Defined.

(** X13.  Every circle is filled with the current colour, so after any
    sequence of frames and camera switches every circle of the overlay is
    green or red, on every display. *)
Theorem overlay_is_green_or_red :
  forall (acos : float -> float) (evs : list Event) (d : Display)
         (c : Circle),
    In c (overlay_circles (renderPose d (run acos evs))) ->
    fill c = color (run acos evs) /\
    (fill c = "green"%string \/ fill c = "red"%string).
Proof.
  intros acos evs d c Hin.
  destruct (renderPose_circles d _ c Hin) as (pose & rest & k & _ & _ & _ & Hc).
  subst c. rewrite renderKeypoint_fill. split; [reflexivity|].
  apply fold_handle_color_ok. left. reflexivity.
Qed.

Lemma overlay_is_green_or_red_witness :
  let evs := [Frame front (Some [pose_nose_far])] in
  let c := renderKeypoint android_portrait (run Fdlibm.acos evs)
             (kp "nose" 5 20) in
  fill c = color (run Fdlibm.acos evs) /\
  (fill c = "green"%string \/ fill c = "red"%string).
Proof.
  apply (overlay_is_green_or_red Fdlibm.acos
           [Frame front (Some [pose_nose_far])] android_portrait).
  right. right. left. reflexivity.
Defined.

(** X14.  Switching the camera mirrors the overlay horizontally and does
    nothing else to it: the ordinate, the key and the fill of a circle are
    the same for both cameras; off Android the back-camera circle of a key
    point is the front-camera circle of the key point reflected in the
    tensor's width; on Android, where the overlay is mirrored for both
    cameras, the whole overlay is unchanged by the switch. *)
Theorem camera_switch_mirrors_overlay :
  forall (d : Display) (st : AppState),
    (forall k : Keypoint,
        let c := renderKeypoint d st k in
        let c' :=
          renderKeypoint d (handleSwitchCameraType (cameraType st) st) k in
        cy c' = cy c /\ key c' = key c /\ fill c' = fill c /\
        (IS_ANDROID (os d) = false ->
         renderKeypoint d (setCameraType back st) k =
         renderKeypoint d (setCameraType front st) (mirrored d k))) /\
    (IS_ANDROID (os d) = true ->
     renderPose d (handleSwitchCameraType (cameraType st) st) =
     renderPose d st).
Proof.
  intros d [p a c col]. split.
  - intros k. cbn zeta.
    split; [destruct c; reflexivity|]. split; [destruct c; reflexivity|].
    split; [destruct c; reflexivity|].
    intros Ha. unfold renderKeypoint. cbn [cameraType setCameraType].
    rewrite Ha. reflexivity.
  - intros Ha. unfold renderPose, handleSwitchCameraType.
    destruct c; cbn [poses cameraType setCameraType CameraType_eqb];
      destruct p as [[|pose rest]|]; try reflexivity;
      f_equal; apply map_ext; intros k; unfold renderKeypoint;
      cbn [cameraType color]; rewrite Ha; reflexivity.
Qed.

Lemma camera_switch_mirrors_overlay_witness :
  let st := loop Fdlibm.acos front (Some [pose_nose_near]) initialState in
  renderPose android_portrait (handleSwitchCameraType (cameraType st) st)
  = renderPose android_portrait st.
Proof.
  exact (proj2 (camera_switch_mirrors_overlay android_portrait
                  (loop Fdlibm.acos front (Some [pose_nose_near])
                     initialState)) eq_refl).
Defined.

(** ** The animation-frame handle *)

Lemma frameStep_cancelled (ev : FrameEvent) :
  frameStep (Some 0%Z) ev = (Some 0%Z, []).
Proof. destruct ev; reflexivity. Qed.

Lemma frameRun_cancelled (evs : list FrameEvent) :
  frameRun (Some 0%Z) evs = (Some 0%Z, []).
Proof.
  induction evs as [|ev evs IH]; [reflexivity|].
  cbn [frameRun]. rewrite frameStep_cancelled, IH. reflexivity.
Qed.

(** X15.  Unmounting while a frame is scheduled cancels that frame, once,
    and ends the loop for good: whatever happens afterwards, the handle
    stays 0, no frame is requested and the preview is not updated. *)
Theorem unmount_stops_the_loop :
  forall (h : positive) (evs : list FrameEvent),
    frameRun (Some (Zpos h)) (Unmounts :: evs) =
    (Some 0%Z, [cancelAnimationFrame (Zpos h)]).
Proof.
  intros h evs. cbn [frameRun frameStep unmount Z.eqb negb].
  rewrite frameRun_cancelled. reflexivity.
Qed.

Lemma frameRun_unmounts_null (n : nat) (evs : list FrameEvent) :
  frameRun None (repeat Unmounts n ++ evs) = frameRun None evs.
Proof.
  induction n as [|n IH]; [reflexivity|].
  cbn [repeat app frameRun frameStep unmount]. rewrite IH.
  destruct (frameRun None evs). reflexivity.
Qed.

(** X16.  Unmounting before the first frame was scheduled, while the
    handle is still null, cancels nothing and does not stop the loop: the
    iteration in flight schedules the next frame as if nothing had
    happened, and every later iteration does too. *)
Theorem unmount_before_first_frame_is_lost :
  forall (n : nat) (evs : list FrameEvent),
    frameRun None (repeat Unmounts n ++ evs) = frameRun None evs /\
    (forall h : positive,
        frameRun None (repeat Unmounts n ++ [IterationEnds h]) =
        (Some (Zpos h), [updatePreview; endFrameEXP; requestAnimationFrame])) /\
    (forall hs : list positive,
        snd (frameRun None (repeat Unmounts n ++ map IterationEnds hs)) =
        List.concat (map (fun _ =>
                       [updatePreview; endFrameEXP; requestAnimationFrame])
                    hs)).
Proof.
  intros n evs. split; [apply frameRun_unmounts_null|]. split.
  - intros h. rewrite frameRun_unmounts_null. reflexivity.
  - intros hs. rewrite frameRun_unmounts_null.
    assert (H : forall r : option Z, r <> Some 0%Z ->
                snd (frameRun r (map IterationEnds hs)) =
                List.concat (map (fun _ =>
                          [updatePreview; endFrameEXP; requestAnimationFrame])
                          hs)).
    { induction hs as [|h hs IH]; intros r Hr; [reflexivity|].
      cbn [map frameRun frameStep List.concat].
      assert (Hl : loopEnd h r =
                   (Some (Zpos h),
                    [updatePreview; endFrameEXP; requestAnimationFrame])).
      { destruct r as [[| |]|]; try reflexivity. contradiction Hr. reflexivity. }
      rewrite Hl. specialize (IH (Some (Zpos h))).
      destruct (frameRun (Some (Zpos h)) (map IterationEnds hs)) as [r2 e2].
      cbn [snd] in *. rewrite IH by discriminate. reflexivity. }
    apply H. discriminate.
Qed.

(** * Properties of the recorder application *)

Lemma recorder_requesting_iff (st : Recorder.State) :
  Recorder.render st = Recorder.RequestingPermissions <->
  Recorder.hasCameraPermission st = None.
Proof.
  destruct st as [c a l p v]. unfold Recorder.render.
  cbn [Recorder.hasCameraPermission Recorder.video
       Recorder.hasMediaLibraryPermission].
  destruct c as [[|]|]; [destruct v| |]; split; intros H;
    try reflexivity; discriminate H.
Qed.

(** X17.  The camera permission gates the whole interface: the
    "requesting" screen shows exactly while the permission is undefined, a
    button is on the screen only when the permission is granted, and the
    Record button exactly when it is granted and no video is held. *)
Theorem recorder_camera_permission_gates_screen :
  forall st : Recorder.State,
    (Recorder.render st = Recorder.RequestingPermissions <->
     Recorder.hasCameraPermission st = None) /\
    (forall b : Recorder.Button,
        In b (Recorder.buttons (Recorder.render st)) ->
        Recorder.hasCameraPermission st = Some true) /\
    (In Recorder.Record (Recorder.buttons (Recorder.render st)) <->
     Recorder.hasCameraPermission st = Some true /\ Recorder.video st = None).
Proof.
  intros [c a l p v]. unfold Recorder.render.
  cbn [Recorder.hasCameraPermission Recorder.video
       Recorder.hasMediaLibraryPermission].
  split; [|split].
  - destruct c as [[|]|]; [destruct v| |]; split; intros H;
      try reflexivity; discriminate H.
  - intros b Hb. destruct c as [[|]|]; [reflexivity | |]; contradiction Hb.
  - split.
    + intros H. destruct c as [[|]|]; try contradiction H.
      destruct v as [m|]; [|split; reflexivity].
      exfalso. cbn in H. destruct (Recorder.truthy l); cbn in H;
        repeat (destruct H as [H | H]; [discriminate H|]); exact H.
    + intros [Hc Hv]. rewrite Hc, Hv. left. reflexivity.
Qed.

Lemma recorder_camera_permission_gates_screen_witness :
  Recorder.hasCameraPermission
    (Recorder.requestPermissions "granted" "denied" "denied"
       Recorder.initialState) = Some true.
Proof.
  exact (proj1 (proj2 (recorder_camera_permission_gates_screen
                         (Recorder.requestPermissions "granted" "denied"
                            "denied" Recorder.initialState)))
           Recorder.Record (or_introl eq_refl)).
Defined.

Lemma recorder_press_library_permission (b : Recorder.Button)
    (w : Recorder.World) (st : Recorder.State) :
  Recorder.hasMediaLibraryPermission (fst (Recorder.press b w st)) =
  Recorder.hasMediaLibraryPermission st.
Proof.
  destruct b; cbn [Recorder.press].
  - unfold Recorder.shareMedia.
    destruct (Recorder.video st), (Recorder.sharing w); reflexivity.
  - unfold Recorder.saveMediaToLibrary.
    destruct (Recorder.video st),
      (Recorder.truthy (Recorder.hasMediaLibraryPermission st)),
      (Recorder.saving w); reflexivity.
  - reflexivity.
  - unfold Recorder.startRecording_call.
    destruct (Recorder.cameraRef_current w); reflexivity.
  - unfold Recorder.stopRecording.
    destruct (Recorder.cameraRef_current w); reflexivity.
Qed.

Lemma recorder_press_no_save (b : Recorder.Button) (w : Recorder.World)
    (st : Recorder.State) :
  Recorder.truthy (Recorder.hasMediaLibraryPermission st) = false ->
  existsb Recorder.is_save_call (snd (Recorder.press b w st)) = false.
Proof.
  intros Hp. destruct b; cbn [Recorder.press].
  - unfold Recorder.shareMedia.
    destruct (Recorder.video st), (Recorder.sharing w); reflexivity.
  - unfold Recorder.saveMediaToLibrary. rewrite Hp.
    destruct (Recorder.video st); reflexivity.
  - reflexivity.
  - unfold Recorder.startRecording_call.
    destruct (Recorder.cameraRef_current w); reflexivity.
  - unfold Recorder.stopRecording.
    destruct (Recorder.cameraRef_current w); reflexivity.
Qed.

Lemma recorder_run_no_save (evs : list Recorder.Event) :
  forall st : Recorder.State,
    Recorder.truthy (Recorder.hasMediaLibraryPermission st) = false ->
    Recorder.library_never_granted evs = true ->
    existsb Recorder.is_save_call (snd (Recorder.run st evs)) = false.
Proof.
  induction evs as [|ev evs IH]; intros st Hp Hn; [reflexivity|].
  cbn [Recorder.run].
  cbn [Recorder.library_never_granted forallb] in Hn.
  apply andb_true_iff in Hn. destruct Hn as [Hev Hn].
  destruct (Recorder.handle st ev) as [st1 e1] eqn:Hh.
  specialize (IH st1).
  destruct (Recorder.run st1 evs) as [st2 e2]. cbn [snd] in *.
  rewrite existsb_app.
  destruct ev as [c m l | b w | o]; cbn [Recorder.handle] in Hh.
  - injection Hh as Hst He. subst st1 e1. cbn [existsb orb].
    apply IH; [|exact Hn]. cbn.
    destruct (Recorder.granted l); [discriminate Hev | reflexivity].
  - pose proof (recorder_press_no_save b w st Hp) as Hs.
    pose proof (recorder_press_library_permission b w st) as Hl.
    rewrite Hh in Hs, Hl. cbn [fst snd] in Hs, Hl.
    rewrite Hs. cbn [orb]. apply IH; [|exact Hn]. rewrite Hl. exact Hp.
  - destruct o; injection Hh as Hst He; subst st1 e1; cbn [existsb orb];
      apply IH; assumption.
Qed.

(** X18.  Nothing is saved without the media-library permission:
    [saveMediaToLibrary] calls the library only with the permission granted
    and a medium at hand, and then with that medium's uri; the Save button
    is shown only in that case; and in a run of any events in which the
    permission is never granted, the library is never called. *)
Theorem recorder_never_saves_without_permission :
  (forall (media : option Recorder.Media) (outcome : Recorder.Outcome unit)
          (st : Recorder.State) (u : string),
      In (Recorder.saveToLibraryAsync u)
         (snd (Recorder.saveMediaToLibrary media outcome st)) ->
      Recorder.hasMediaLibraryPermission st = Some true /\
      media = Some (Recorder.mkMedia u)) /\
  (forall st : Recorder.State,
      In Recorder.Save (Recorder.buttons (Recorder.render st)) ->
      Recorder.hasMediaLibraryPermission st = Some true /\
      Recorder.video st <> None) /\
  (forall evs : list Recorder.Event,
      Recorder.library_never_granted evs = true ->
      existsb Recorder.is_save_call
        (snd (Recorder.run Recorder.initialState evs)) = false).
Proof.
  split; [|split].
  - intros media outcome st u. unfold Recorder.saveMediaToLibrary.
    destruct media as [[u']|]; [|intros H; contradiction H].
    destruct (Recorder.hasMediaLibraryPermission st) as [[|]|];
      cbn [Recorder.truthy]; try (intros H; contradiction H).
    destruct outcome; cbn; intros H;
      repeat (destruct H as [H | H]; try discriminate H);
      try contradiction H; injection H as H; subst; split; reflexivity.
  - intros [c a l p v]. unfold Recorder.render. cbn.
    destruct c as [[|]|]; try contradiction.
    destruct v as [m|]; cbn.
    + destruct l as [[|]|]; cbn; intros H;
        repeat (destruct H as [H | H]; try discriminate H);
        try contradiction H; split; [reflexivity | discriminate].
    + intros H. repeat (destruct H as [H | H]; try discriminate H).
      contradiction H.
  - intros evs Hn. apply recorder_run_no_save; [reflexivity | exact Hn].
Qed.

Lemma recorder_never_saves_without_permission_witness :
  let w := {| Recorder.cameraRef_current := true;
              Recorder.sharing := Recorder.resolved tt;
              Recorder.saving := Recorder.resolved tt |} in
  existsb Recorder.is_save_call
    (snd (Recorder.run Recorder.initialState
            [Recorder.PermissionsAnswered "granted" "granted" "denied";
             Recorder.Pressed Recorder.Record w;
             Recorder.Pressed Recorder.StopRecording w;
             Recorder.RecordingSettles
               (Recorder.resolved (Recorder.mkMedia "file:///clip.mp4"));
             Recorder.Pressed Recorder.Save w])) = false.
Proof.
  intros w.
  exact (proj2 (proj2 recorder_never_saves_without_permission)
           [Recorder.PermissionsAnswered "granted" "granted" "denied";
            Recorder.Pressed Recorder.Record w;
            Recorder.Pressed Recorder.StopRecording w;
            Recorder.RecordingSettles
              (Recorder.resolved (Recorder.mkMedia "file:///clip.mp4"));
            Recorder.Pressed Recorder.Save w] eq_refl).
Defined.

(** X19.  Discarding returns to the camera: after [discardMedia] no
    photo and no video is held and the preview is not shown, whatever the
    state; discarding twice is discarding once; and a successful recording
    followed by a discard restores a state that held no medium, the screen
    going from the camera to the preview of the new video and back. *)
Theorem recorder_discard_round_trip :
  forall st : Recorder.State,
    let st' := Recorder.discardMedia st in
    (Recorder.video st' = None /\ Recorder.photo st' = None) /\
    (forall (u : string) (bs : list Recorder.Button),
        Recorder.render st' <> Recorder.Preview u bs) /\
    Recorder.discardMedia st' = st' /\
    (forall v : Recorder.Media,
        Recorder.video st = None -> Recorder.photo st = None ->
        let recorded :=
          fst (Recorder.startRecording true (Recorder.resolved v) st) in
        Recorder.discardMedia recorded = st /\
        (Recorder.hasCameraPermission st = Some true ->
         Recorder.render st =
           Recorder.CameraScreen [Recorder.Record; Recorder.StopRecording] /\
         (exists bs : list Recorder.Button,
             Recorder.render recorded = Recorder.Preview (Recorder.uri v) bs) /\
         Recorder.render (Recorder.discardMedia recorded) =
           Recorder.CameraScreen [Recorder.Record; Recorder.StopRecording])).
Proof.
  intros [c a l p v0]. cbn zeta. split; [split; reflexivity|].
  split.
  { intros u bs. unfold Recorder.render. cbn.
    destruct c as [[|]|]; discriminate. }
  split; [reflexivity|].
  intros v Hv Hp. cbn in Hv, Hp. subst v0 p.
  split; [reflexivity|].
  intros Hc. cbn in Hc. subst c.
  split; [reflexivity|]. split; [|reflexivity].
  eexists. reflexivity.
Qed.

Lemma recorder_discard_round_trip_witness :
  let st := Recorder.requestPermissions "granted" "granted" "granted"
              Recorder.initialState in
  let recorded :=
    fst (Recorder.startRecording true
           (Recorder.resolved (Recorder.mkMedia "file:///clip.mp4")) st) in
  Recorder.discardMedia recorded = st /\
  Recorder.render (Recorder.discardMedia recorded) =
    Recorder.CameraScreen [Recorder.Record; Recorder.StopRecording].
Proof.
  intros st recorded.
  destruct (recorder_discard_round_trip st) as (_ & _ & _ & H).
  destruct (H (Recorder.mkMedia "file:///clip.mp4") eq_refl eq_refl)
    as [Hd Hr].
  split; [exact Hd|]. exact (proj2 (proj2 (Hr eq_refl))).
Defined.

(** X20.  The microphone permission is stored and never consulted:
    whatever value the cell holds, the screen is the same, and every button
    makes the same platform calls and the same changes to the other
    cells. *)
Theorem recorder_audio_permission_unused :
  forall (a : bool) (st : Recorder.State),
    Recorder.render (Recorder.setHasAudioPermission a st) =
      Recorder.render st /\
    (forall (b : Recorder.Button) (w : Recorder.World),
        Recorder.press b w (Recorder.setHasAudioPermission a st) =
        (Recorder.setHasAudioPermission a (fst (Recorder.press b w st)),
         snd (Recorder.press b w st))).
Proof.
  intros a [c a0 l p v]. split; [reflexivity|].
  intros b [cur sh sv]. destruct b; cbn.
  - destruct v, sh; reflexivity.
  - destruct v, l as [[|]|], sv; reflexivity.
  - reflexivity.
  - destruct cur; reflexivity.
  - destruct cur; reflexivity.
Qed.

Lemma recorder_handle_photo (st : Recorder.State) (ev : Recorder.Event) :
  Recorder.photo st = None ->
  Recorder.photo (fst (Recorder.handle st ev)) = None.
Proof.
  intros Hp. destruct st as [c a l p v]. cbn in Hp. subst p.
  destruct ev as [cs ms ls | b [cur sh sv] | o];
    [reflexivity | | destruct o; reflexivity].
  destruct b; cbn.
  - destruct v, sh; reflexivity.
  - destruct v, l as [[|]|], sv; reflexivity.
  - reflexivity.
  - destruct cur; reflexivity.
  - destruct cur; reflexivity.
Qed.

Lemma recorder_handle_camera_permission (st : Recorder.State)
    (ev : Recorder.Event) :
  Recorder.hasCameraPermission st <> None ->
  Recorder.hasCameraPermission (fst (Recorder.handle st ev)) <> None.
Proof.
  intros Hc. destruct st as [c a l p v]. cbn in Hc.
  destruct ev as [cs ms ls | b [cur sh sv] | o];
    [discriminate | | destruct o; exact Hc].
  destruct b; cbn.
  - destruct v, sh; exact Hc.
  - destruct v, l as [[|]|], sv; exact Hc.
  - exact Hc.
  - destruct cur; exact Hc.
  - destruct cur; exact Hc.
Qed.

Lemma recorder_run_invariant (P : Recorder.State -> Prop) :
  (forall st ev, P st -> P (fst (Recorder.handle st ev))) ->
  forall (evs : list Recorder.Event) (st : Recorder.State),
    P st -> P (fst (Recorder.run st evs)).
Proof.
  intros Hstep. induction evs as [|ev evs IH]; intros st HP; [exact HP|].
  cbn [Recorder.run]. specialize (Hstep st ev HP).
  destruct (Recorder.handle st ev) as [st1 e1]. cbn [fst] in Hstep.
  specialize (IH st1 Hstep).
  destruct (Recorder.run st1 evs) as [st2 e2]. exact IH.
Qed.

(** X21.  No photo is ever held: [setPhoto] is only called to clear the
    cell, so after any sequence of events from the initial state the photo
    is undefined. *)
Theorem recorder_photo_always_undefined :
  forall evs : list Recorder.Event,
    Recorder.photo (fst (Recorder.run Recorder.initialState evs)) = None.
Proof.
  intros evs.
  apply (recorder_run_invariant (fun st => Recorder.photo st = None)).
  - apply recorder_handle_photo.
  - reflexivity.
Qed.

(** X22.  Once the permissions were answered, the "requesting" screen
    never shows again, whatever happens before and after; and the answer
    shows the "not granted" screen unless the camera status is exactly
    "granted". *)
Theorem recorder_requesting_screen_never_returns :
  (forall (before after : list Recorder.Event) (c m l : string),
      Recorder.render
        (fst (Recorder.run Recorder.initialState
                (before ++ Recorder.PermissionsAnswered c m l :: after)))
      <> Recorder.RequestingPermissions) /\
  (forall (st : Recorder.State) (c m l : string),
      c <> "granted"%string ->
      Recorder.render (Recorder.requestPermissions c m l st) =
      Recorder.PermissionNotGranted).
Proof.
  split.
  - intros before after c m l.
    assert (Hsplit : forall (evs1 evs2 : list Recorder.Event)
                            (st : Recorder.State),
               fst (Recorder.run st (evs1 ++ evs2)) =
               fst (Recorder.run (fst (Recorder.run st evs1)) evs2)).
    { induction evs1 as [|ev evs1 IH]; intros evs2 st; [reflexivity|].
      cbn [app Recorder.run].
      destruct (Recorder.handle st ev) as [st1 e1].
      rewrite (surjective_pairing (Recorder.run st1 (evs1 ++ evs2))).
      rewrite (surjective_pairing (Recorder.run st1 evs1)).
      cbn [fst]. apply IH. }
    rewrite Hsplit.
    set (st0 := fst (Recorder.run Recorder.initialState before)).
    assert (Hc : Recorder.hasCameraPermission
                   (fst (Recorder.run st0
                           (Recorder.PermissionsAnswered c m l :: after)))
                 <> None).
    { cbn [Recorder.run Recorder.handle].
      rewrite (surjective_pairing (Recorder.run _ after)). cbn [fst].
      apply (recorder_run_invariant
               (fun st => Recorder.hasCameraPermission st <> None)).
      - apply recorder_handle_camera_permission.
      - discriminate. }
    intros Hr.
    apply recorder_requesting_iff in Hr.
    exact (Hc Hr).
  - intros st c m l Hc. unfold Recorder.render, Recorder.requestPermissions.
    cbn. unfold Recorder.granted.
    destruct (String.eqb_spec c "granted"); [contradiction|reflexivity].
Qed.

Lemma recorder_requesting_screen_never_returns_witness :
  Recorder.render
    (Recorder.requestPermissions "denied" "granted" "granted"
       Recorder.initialState) = Recorder.PermissionNotGranted.
Proof.
  apply (proj2 recorder_requesting_screen_never_returns).
  intros H. discriminate H.
Defined.

(** * Frames as functions of the detection *)

Ltac case_conditions :=
  repeat match goal with
         | |- context [if ?c then _ else _] => destruct c
         end.

(** X23.  A frame has no memory where it decides: when a camera branch
    runs, verdict and colour after the frame are the same from any two
    states, and when it does not run but both shoulders are present, so is
    the verdict. *)
Theorem frame_verdict_ignores_history :
  forall (acos : float -> float) (cam : CameraType) (pose : Pose)
         (rest : list Pose) (st1 st2 : AppState),
    let kps := keypoints pose in
    let after st := loop acos cam (Some (pose :: rest)) st in
    (frontGuard cam kps || backGuard cam kps = true ->
     aligned (after st1) = aligned (after st2) /\
     color (after st1) = color (after st2)) /\
    (present (find_named "left_shoulder" kps)
     && present (find_named "right_shoulder" kps) = true ->
     aligned (after st1) = aligned (after st2)).
Proof.
  intros acos cam pose rest st1 st2 kps after. subst after kps.
  unfold loop, detectPosture, shoulderCheck, backBranch, frontBranch,
    frontGuard, backGuard.
  destruct cam; cbn [CameraType_eqb]; case_keypoints;
    cbn [present andb orb]; split; intros Hg; try discriminate Hg;
    case_conditions; repeat split.
Qed.

Lemma frame_verdict_ignores_history_witness :
  let after st := loop Fdlibm.acos front (Some [pose_nose_near]) st in
  aligned (after initialState) = aligned (after state_red) /\
  color (after initialState) = color (after state_red).
Proof.
  exact (proj1 (frame_verdict_ignores_history Fdlibm.acos front
                  pose_nose_near [] initialState state_red) eq_refl).
Defined.

(** X24.  Processing the same detection twice is processing it once: a
    frame is idempotent, for every detection result, camera and state. *)
Theorem frame_is_idempotent :
  forall (acos : float -> float) (cam : CameraType)
         (detected : option (list Pose)) (st : AppState),
    loop acos cam detected (loop acos cam detected st) =
    loop acos cam detected st.
Proof.
  intros acos cam [[|pose rest]|] st; try reflexivity.
  unfold loop, detectPosture, shoulderCheck, backBranch, frontBranch.
  destruct cam; cbn [CameraType_eqb]; case_keypoints;
    case_conditions; reflexivity.
Qed.
